(** * otclient: the OpenGL painter state machine and the map view painter

    A shallow embedding of
      - src/framework/graphics/ogl/painterogl.cpp  (module [PainterOGL])
      - src/client/painter/mapviewpainter.cpp      (module [MapViewPainter])
    followed by the properties of these two units.

    Conventions.
      - C++ [int] values are [Z]; the 8-bit loop counters of the map view
        painter are [Z] with the wrap-around written out ([to_int8]).
      - [float] is an abstract carrier [F] with the few operations the code
        uses (class [FloatOps]); no rounding property is ever assumed.
      - OpenGL is a log: every [gl*] call is appended to the painter's
        [gl] field, so that "no GPU call" is "the log did not grow".
      - [assert] is fatal: an operation whose assertion fails yields
        [AssertionFailed]; an array access outside its bounds, which C++
        leaves undefined, yields [OutOfBounds]. *)

From Stdlib Require Import ZArith List Bool Lia QArith.
From stdpp Require Import base list.
Import ListNotations.

#[local] Open Scope Z_scope.

(** ** Values shared by both units *)

(** The operations on [float] that the two units use. *)
Class FloatOps (F : Type) := {
  f_zero : F;                 (* 0.0f *)
  f_one : F;                  (* 1.0f *)
  f_two : F;                  (* 2.0f *)
  f_065 : F;                  (* .65 converted to float *)
  f_neg : F -> F;             (* unary minus *)
  f_div : F -> F -> F;
  f_mul : F -> F -> F;
  f_of_int : Z -> F;          (* int -> float conversion *)
  f_to_int : F -> Z           (* float -> int conversion (truncation) *)
}.

(** Exact rationals: a carrier on which the model can be run. *)
#[global] Instance FloatOps_Q : FloatOps Q := {
  f_zero := 0%Q;
  f_one := 1%Q;
  f_two := 2%Q;
  f_065 := (65 # 100)%Q;
  f_neg := Qopp;
  f_div := Qdiv;
  f_mul := Qmult;
  f_of_int := inject_Z;
  f_to_int := fun q => Z.quot (Qnum q) (Zpos (Qden q))
}.

Record Size := mkSize { Size_width : Z; Size_height : Z }.

Definition Size_eqb (a b : Size) : bool :=
  (Size_width a =? Size_width b) && (Size_height a =? Size_height b).

Record Point := mkPoint { Point_x : Z; Point_y : Z }.

(** [Point -= T]: the scalar is taken off both coordinates. *)
Definition Point_sub_scalar (p : Point) (v : Z) : Point :=
  mkPoint (Point_x p - v) (Point_y p - v).

Definition Point_sub (p q : Point) : Point :=
  mkPoint (Point_x p - Point_x q) (Point_y p - Point_y q).

Definition Point_add (p q : Point) : Point :=
  mkPoint (Point_x p + Point_x q) (Point_y p + Point_y q).

(** Modelled from the spec: the rectangle type of framework/util/rect.h is
    not among the sources. A rectangle is its two corners, inclusive;
    equality is field-wise. *)
Record Rect := mkRect { Rect_x1 : Z; Rect_y1 : Z; Rect_x2 : Z; Rect_y2 : Z }.

Definition Rect_eqb (a b : Rect) : bool :=
  (Rect_x1 a =? Rect_x1 b) && (Rect_y1 a =? Rect_y1 b) &&
  (Rect_x2 a =? Rect_x2 b) && (Rect_y2 a =? Rect_y2 b).

Definition Rect_isValid (r : Rect) : bool :=
  (Rect_x1 r <=? Rect_x2 r) && (Rect_y1 r <=? Rect_y2 r).
Definition Rect_left (r : Rect) : Z := Rect_x1 r.
Definition Rect_bottom (r : Rect) : Z := Rect_y2 r.
Definition Rect_width (r : Rect) : Z := Rect_x2 r - Rect_x1 r + 1.
Definition Rect_height (r : Rect) : Z := Rect_y2 r - Rect_y1 r + 1.
Definition Rect_topLeft (r : Rect) : Point := mkPoint (Rect_x1 r) (Rect_y1 r).
Definition Rect_size (r : Rect) : Size := mkSize (Rect_width r) (Rect_height r).
(** [Rect(point, width, height)] *)
Definition Rect_of_point (p : Point) (w h : Z) : Rect :=
  mkRect (Point_x p) (Point_y p) (Point_x p + w - 1) (Point_y p + h - 1).

(** A pointer to a texture or to a shader program: [None] is [nullptr],
    [Some a] the object at address [a]. Pointers compare by address. *)
Definition TexturePtr := option N.
Definition ShaderPtr := option N.

Definition ptr_eqb (a b : option N) : bool :=
  match a, b with
  | None, None => true
  | Some x, Some y => N.eqb x y
  | _, _ => false
  end.

(** What an operation that can hit an [assert] or leave an array yields. *)
Inductive Outcome (A : Type) : Type :=
| Done (a : A)
| AssertionFailed
| OutOfBounds.
Arguments Done {A} a.
Arguments AssertionFailed {A}.
Arguments OutOfBounds {A}.

#[global] Instance Outcome_ret : MRet Outcome := fun A a => Done a.

#[global] Instance Outcome_bind : MBind Outcome := fun A B k m =>
  match m with
  | Done a => k a
  | AssertionFailed => AssertionFailed
  | OutOfBounds => OutOfBounds
  end.

(** Repeating an operation that may fail. *)
Fixpoint orepeat {A} (n : nat) (op : A -> Outcome A) (a : A) : Outcome A :=
  match n with
  | O => Done a
  | S n' => a' ← op a; orepeat n' op a'
  end.

(** ** framework/graphics/ogl/painterogl.cpp *)

Module PainterOGL.

Inductive CompositionMode :=
| CompositionMode_Normal
| CompositionMode_Multiply
| CompositionMode_Add
| CompositionMode_Replace
| CompositionMode_DestBlending
| CompositionMode_Light.

Inductive BlendEquation :=
| BlendEquation_Add
| BlendEquation_Max
| BlendEquation_Min
| BlendEquation_Subtract
| BlendEquation_Rever_Subtract.

Definition CompositionMode_eqb (a b : CompositionMode) : bool :=
  match a, b with
  | CompositionMode_Normal, CompositionMode_Normal
  | CompositionMode_Multiply, CompositionMode_Multiply
  | CompositionMode_Add, CompositionMode_Add
  | CompositionMode_Replace, CompositionMode_Replace
  | CompositionMode_DestBlending, CompositionMode_DestBlending
  | CompositionMode_Light, CompositionMode_Light => true
  | _, _ => false
  end.

Definition BlendEquation_eqb (a b : BlendEquation) : bool :=
  match a, b with
  | BlendEquation_Add, BlendEquation_Add
  | BlendEquation_Max, BlendEquation_Max
  | BlendEquation_Min, BlendEquation_Min
  | BlendEquation_Subtract, BlendEquation_Subtract
  | BlendEquation_Rever_Subtract, BlendEquation_Rever_Subtract => true
  | _, _ => false
  end.

(** The OpenGL constants the painter passes. *)
Inductive GLenum :=
| GL_SRC_ALPHA | GL_ONE_MINUS_SRC_ALPHA | GL_ONE | GL_ZERO
| GL_DST_COLOR | GL_ONE_MINUS_SRC_COLOR | GL_ONE_MINUS_DST_ALPHA
| GL_DST_ALPHA | GL_SRC_COLOR
| GL_SCISSOR_TEST | GL_TEXTURE_2D | GL_COLOR_BUFFER_BIT.

Section Painter.

Context {F : Type} {FO : FloatOps F}.

Record Color := mkColor { rF : F; gF : F; bF : F; aF : F }.

Definition Color_white : Color := mkColor f_one f_one f_one f_one.

(** A 3x3 matrix, row by row, as in the initialiser lists of the code. *)
Record Matrix3 := mkMatrix3 {
  m11 : F; m12 : F; m13 : F;
  m21 : F; m22 : F; m23 : F;
  m31 : F; m32 : F; m33 : F
}.

(** The calls the painter makes to OpenGL. *)
Inductive GLCall :=
| glClearColor (r g b a : F)
| glClear (mask : GLenum)
| glBlendFuncSeparate (srcRGB dstRGB srcAlpha dstAlpha : GLenum)
| glBlendFunc (sfactor dfactor : GLenum)
| glBlendEquation (mode : Z)
| glEnable (cap : GLenum)
| glDisable (cap : GLenum)
| glScissor (x y w h : Z)
| glBindTexture (target : GLenum) (id : Z)
| glColorMask (r g b a : bool)
| glViewport (x y w h : Z).

(** What the painter reads from outside itself: the texture objects behind
    the pointers ([Texture::getId], [Texture::getTransformMatrix]), the two
    capability queries of [g_graphics], whether this painter is the one
    [g_painter] points to, and the value a default-initialised
    [PainterState] holds in its [texture] member. *)
Record Env := mkEnv {
  Texture_getId : N -> Z;
  Texture_getTransformMatrix : N -> Matrix3;
  canUseBlendFuncSeparate : bool;
  canUseBlendEquation : bool;
  g_painter_is_this : bool;
  default_state_texture : TexturePtr
}.

Variable env : Env.

Record PainterState := mkPainterState {
  resolution : Size;
  transformMatrix : Matrix3;
  projectionMatrix : Matrix3;
  textureMatrix : Matrix3;
  color : Color;
  opacity : F;
  compositionMode : CompositionMode;
  blendEquation : BlendEquation;
  clipRect : Rect;
  texture : TexturePtr;
  shaderProgram : ShaderPtr;
  alphaWriting : bool
}.

(** The members of the painter, and the log of the OpenGL calls made. *)
Record Painter := mkPainter {
  m_resolution : Size;
  m_transformMatrix : Matrix3;
  m_projectionMatrix : Matrix3;
  m_textureMatrix : Matrix3;
  m_color : Color;
  m_opacity : F;
  m_compositionMode : CompositionMode;
  m_blendEquation : BlendEquation;
  m_clipRect : Rect;
  m_texture : TexturePtr;
  m_shaderProgram : ShaderPtr;
  m_alphaWriting : bool;
  m_glTextureId : Z;
  m_oldStateIndex : Z;
  m_olderStates : list PainterState;          (* PainterState[10] *)
  m_transformMatrixStack : list Matrix3;      (* std::vector, back = last *)
  gl : list GLCall
}.

(** Assignments to single members. *)
Definition with_resolution v p := mkPainter v (m_transformMatrix p) (m_projectionMatrix p) (m_textureMatrix p) (m_color p) (m_opacity p) (m_compositionMode p) (m_blendEquation p) (m_clipRect p) (m_texture p) (m_shaderProgram p) (m_alphaWriting p) (m_glTextureId p) (m_oldStateIndex p) (m_olderStates p) (m_transformMatrixStack p) (gl p).
Definition with_transformMatrix v p := mkPainter (m_resolution p) v (m_projectionMatrix p) (m_textureMatrix p) (m_color p) (m_opacity p) (m_compositionMode p) (m_blendEquation p) (m_clipRect p) (m_texture p) (m_shaderProgram p) (m_alphaWriting p) (m_glTextureId p) (m_oldStateIndex p) (m_olderStates p) (m_transformMatrixStack p) (gl p).
Definition with_projectionMatrix v p := mkPainter (m_resolution p) (m_transformMatrix p) v (m_textureMatrix p) (m_color p) (m_opacity p) (m_compositionMode p) (m_blendEquation p) (m_clipRect p) (m_texture p) (m_shaderProgram p) (m_alphaWriting p) (m_glTextureId p) (m_oldStateIndex p) (m_olderStates p) (m_transformMatrixStack p) (gl p).
Definition with_textureMatrix v p := mkPainter (m_resolution p) (m_transformMatrix p) (m_projectionMatrix p) v (m_color p) (m_opacity p) (m_compositionMode p) (m_blendEquation p) (m_clipRect p) (m_texture p) (m_shaderProgram p) (m_alphaWriting p) (m_glTextureId p) (m_oldStateIndex p) (m_olderStates p) (m_transformMatrixStack p) (gl p).
Definition with_color v p := mkPainter (m_resolution p) (m_transformMatrix p) (m_projectionMatrix p) (m_textureMatrix p) v (m_opacity p) (m_compositionMode p) (m_blendEquation p) (m_clipRect p) (m_texture p) (m_shaderProgram p) (m_alphaWriting p) (m_glTextureId p) (m_oldStateIndex p) (m_olderStates p) (m_transformMatrixStack p) (gl p).
Definition with_opacity v p := mkPainter (m_resolution p) (m_transformMatrix p) (m_projectionMatrix p) (m_textureMatrix p) (m_color p) v (m_compositionMode p) (m_blendEquation p) (m_clipRect p) (m_texture p) (m_shaderProgram p) (m_alphaWriting p) (m_glTextureId p) (m_oldStateIndex p) (m_olderStates p) (m_transformMatrixStack p) (gl p).
Definition with_compositionMode v p := mkPainter (m_resolution p) (m_transformMatrix p) (m_projectionMatrix p) (m_textureMatrix p) (m_color p) (m_opacity p) v (m_blendEquation p) (m_clipRect p) (m_texture p) (m_shaderProgram p) (m_alphaWriting p) (m_glTextureId p) (m_oldStateIndex p) (m_olderStates p) (m_transformMatrixStack p) (gl p).
Definition with_blendEquation v p := mkPainter (m_resolution p) (m_transformMatrix p) (m_projectionMatrix p) (m_textureMatrix p) (m_color p) (m_opacity p) (m_compositionMode p) v (m_clipRect p) (m_texture p) (m_shaderProgram p) (m_alphaWriting p) (m_glTextureId p) (m_oldStateIndex p) (m_olderStates p) (m_transformMatrixStack p) (gl p).
Definition with_clipRect v p := mkPainter (m_resolution p) (m_transformMatrix p) (m_projectionMatrix p) (m_textureMatrix p) (m_color p) (m_opacity p) (m_compositionMode p) (m_blendEquation p) v (m_texture p) (m_shaderProgram p) (m_alphaWriting p) (m_glTextureId p) (m_oldStateIndex p) (m_olderStates p) (m_transformMatrixStack p) (gl p).
Definition with_texture v p := mkPainter (m_resolution p) (m_transformMatrix p) (m_projectionMatrix p) (m_textureMatrix p) (m_color p) (m_opacity p) (m_compositionMode p) (m_blendEquation p) (m_clipRect p) v (m_shaderProgram p) (m_alphaWriting p) (m_glTextureId p) (m_oldStateIndex p) (m_olderStates p) (m_transformMatrixStack p) (gl p).
Definition with_shaderProgram v p := mkPainter (m_resolution p) (m_transformMatrix p) (m_projectionMatrix p) (m_textureMatrix p) (m_color p) (m_opacity p) (m_compositionMode p) (m_blendEquation p) (m_clipRect p) (m_texture p) v (m_alphaWriting p) (m_glTextureId p) (m_oldStateIndex p) (m_olderStates p) (m_transformMatrixStack p) (gl p).
Definition with_alphaWriting v p := mkPainter (m_resolution p) (m_transformMatrix p) (m_projectionMatrix p) (m_textureMatrix p) (m_color p) (m_opacity p) (m_compositionMode p) (m_blendEquation p) (m_clipRect p) (m_texture p) (m_shaderProgram p) v (m_glTextureId p) (m_oldStateIndex p) (m_olderStates p) (m_transformMatrixStack p) (gl p).
Definition with_glTextureId v p := mkPainter (m_resolution p) (m_transformMatrix p) (m_projectionMatrix p) (m_textureMatrix p) (m_color p) (m_opacity p) (m_compositionMode p) (m_blendEquation p) (m_clipRect p) (m_texture p) (m_shaderProgram p) (m_alphaWriting p) v (m_oldStateIndex p) (m_olderStates p) (m_transformMatrixStack p) (gl p).
Definition with_oldStateIndex v p := mkPainter (m_resolution p) (m_transformMatrix p) (m_projectionMatrix p) (m_textureMatrix p) (m_color p) (m_opacity p) (m_compositionMode p) (m_blendEquation p) (m_clipRect p) (m_texture p) (m_shaderProgram p) (m_alphaWriting p) (m_glTextureId p) v (m_olderStates p) (m_transformMatrixStack p) (gl p).
Definition with_olderStates v p := mkPainter (m_resolution p) (m_transformMatrix p) (m_projectionMatrix p) (m_textureMatrix p) (m_color p) (m_opacity p) (m_compositionMode p) (m_blendEquation p) (m_clipRect p) (m_texture p) (m_shaderProgram p) (m_alphaWriting p) (m_glTextureId p) (m_oldStateIndex p) v (m_transformMatrixStack p) (gl p).
Definition with_transformMatrixStack v p := mkPainter (m_resolution p) (m_transformMatrix p) (m_projectionMatrix p) (m_textureMatrix p) (m_color p) (m_opacity p) (m_compositionMode p) (m_blendEquation p) (m_clipRect p) (m_texture p) (m_shaderProgram p) (m_alphaWriting p) (m_glTextureId p) (m_oldStateIndex p) (m_olderStates p) v (gl p).
Definition with_gl v p := mkPainter (m_resolution p) (m_transformMatrix p) (m_projectionMatrix p) (m_textureMatrix p) (m_color p) (m_opacity p) (m_compositionMode p) (m_blendEquation p) (m_clipRect p) (m_texture p) (m_shaderProgram p) (m_alphaWriting p) (m_glTextureId p) (m_oldStateIndex p) (m_olderStates p) (m_transformMatrixStack p) v.

(** One OpenGL call: the log grows by one entry. *)
Definition call (c : GLCall) (p : Painter) : Painter := with_gl (gl p ++ [c]) p.

(** *** updateGl...: pushing the stored state to OpenGL *)

Definition updateGlTexture (p : Painter) : Painter :=
  if negb (m_glTextureId p =? 0)
  then call (glBindTexture GL_TEXTURE_2D (m_glTextureId p)) p
  else p.

Definition updateGlCompositionMode (p : Painter) : Painter :=
  match m_compositionMode p with
  | CompositionMode_Normal =>
      if canUseBlendFuncSeparate env
      then call (glBlendFuncSeparate GL_SRC_ALPHA GL_ONE_MINUS_SRC_ALPHA GL_ONE GL_ONE) p
      else call (glBlendFunc GL_SRC_ALPHA GL_ONE_MINUS_SRC_ALPHA) p
  | CompositionMode_Multiply => call (glBlendFunc GL_DST_COLOR GL_ONE_MINUS_SRC_ALPHA) p
  | CompositionMode_Add => call (glBlendFunc GL_ONE_MINUS_SRC_COLOR GL_ONE_MINUS_SRC_COLOR) p
  | CompositionMode_Replace => call (glBlendFunc GL_ONE GL_ZERO) p
  | CompositionMode_DestBlending => call (glBlendFunc GL_ONE_MINUS_DST_ALPHA GL_DST_ALPHA) p
  | CompositionMode_Light => call (glBlendFunc GL_ZERO GL_SRC_COLOR) p
  end.

Definition updateGlBlendEquation (p : Painter) : Painter :=
  if negb (canUseBlendEquation env) then p
  else match m_blendEquation p with
       | BlendEquation_Add => call (glBlendEquation 0x8006) p
       | BlendEquation_Max => call (glBlendEquation 0x8008) p
       | BlendEquation_Min => call (glBlendEquation 0x8007) p
       | BlendEquation_Subtract => call (glBlendEquation 0x800A) p
       | BlendEquation_Rever_Subtract => call (glBlendEquation 0x800B) p
       end.

Definition updateGlClipRect (p : Painter) : Painter :=
  if Rect_isValid (m_clipRect p) then
    call (glScissor (Rect_left (m_clipRect p))
                    (Size_height (m_resolution p) - Rect_bottom (m_clipRect p) - 1)
                    (Rect_width (m_clipRect p)) (Rect_height (m_clipRect p)))
         (call (glEnable GL_SCISSOR_TEST) p)
  else
    call (glDisable GL_SCISSOR_TEST)
         (call (glScissor 0 0 (Size_width (m_resolution p)) (Size_height (m_resolution p))) p).

Definition updateGlAlphaWriting (p : Painter) : Painter :=
  if m_alphaWriting p
  then call (glColorMask true true true true) p
  else call (glColorMask true true true false) p.

Definition updateGlViewport (p : Painter) : Painter :=
  call (glViewport 0 0 (Size_width (m_resolution p)) (Size_height (m_resolution p))) p.

(** *** Setters *)

(** Modelled from the spec: [setColor], [setOpacity], [setShaderProgram],
    [setTransformMatrix], [setProjectionMatrix] and [setTextureMatrix] are
    defined inline in painterogl.h, which is not among the sources. Each
    one stores its argument in the member it names ("tracks current
    rendering state ... as a mutable machine"). *)
Definition setColor (c : Color) (p : Painter) : Painter := with_color c p.
Definition setOpacity (o : F) (p : Painter) : Painter := with_opacity o p.
Definition setShaderProgram (s : ShaderPtr) (p : Painter) : Painter :=
  with_shaderProgram s p.
Definition setTransformMatrix (m : Matrix3) (p : Painter) : Painter :=
  with_transformMatrix m p.
Definition setProjectionMatrix (m : Matrix3) (p : Painter) : Painter :=
  with_projectionMatrix m p.
Definition setTextureMatrix (m : Matrix3) (p : Painter) : Painter :=
  with_textureMatrix m p.

Definition setCompositionMode (compositionMode : CompositionMode) (p : Painter) : Painter :=
  if CompositionMode_eqb (m_compositionMode p) compositionMode then p
  else updateGlCompositionMode (with_compositionMode compositionMode p).

Definition setBlendEquation (blendEquation : BlendEquation) (p : Painter) : Painter :=
  if BlendEquation_eqb (m_blendEquation p) blendEquation then p
  else updateGlBlendEquation (with_blendEquation blendEquation p).

Definition setClipRect (clipRect : Rect) (p : Painter) : Painter :=
  if Rect_eqb (m_clipRect p) clipRect then p
  else updateGlClipRect (with_clipRect clipRect p).

Definition setTexture (texture : TexturePtr) (p : Painter) : Painter :=
  if ptr_eqb (m_texture p) texture then p
  else
    let p1 := with_texture texture p in
    let '(p2, glTextureId) :=
      match texture with
      | Some t => (setTextureMatrix (Texture_getTransformMatrix env t) p1,
                   Texture_getId env t)
      | None => (p1, 0)
      end in
    if negb (m_glTextureId p2 =? glTextureId)
    then updateGlTexture (with_glTextureId glTextureId p2)
    else p2.

Definition setAlphaWriting (enable : bool) (p : Painter) : Painter :=
  if Bool.eqb (m_alphaWriting p) enable then p
  else updateGlAlphaWriting (with_alphaWriting enable p).

Definition setResolution (resolution : Size) (p : Painter) : Painter :=
  if Size_eqb resolution (m_resolution p) then p
  else
    let projectionMatrix :=
      mkMatrix3 (f_div f_two (f_of_int (Size_width resolution))) f_zero f_zero
                f_zero (f_div (f_neg f_two) (f_of_int (Size_height resolution))) f_zero
                (f_neg f_one) f_one f_one in
    let p1 := with_resolution resolution p in
    let p2 := setProjectionMatrix projectionMatrix p1 in
    if g_painter_is_this env then updateGlViewport p2 else p2.

(** *** Saving and restoring the state *)

(** [PainterState state;] leaves [state.texture] as default initialisation
    left it: no assignment to it follows. *)
Definition getCurrentState (p : Painter) : PainterState :=
  mkPainterState (m_resolution p) (m_transformMatrix p) (m_projectionMatrix p)
                 (m_textureMatrix p) (m_color p) (m_opacity p)
                 (m_compositionMode p) (m_blendEquation p) (m_clipRect p)
                 (default_state_texture env)
                 (m_shaderProgram p) (m_alphaWriting p).

(** [m_olderStates[i]]: reading the C array at index [i]. *)
Definition array_get {A} (a : list A) (i : Z) : option A :=
  if 0 <=? i then a !! Z.to_nat i else None.

(** [m_olderStates[i] = v]: writing the C array at index [i]. *)
Definition array_set {A} (a : list A) (i : Z) (v : A) : option (list A) :=
  if (0 <=? i) && (i <? Z.of_nat (length a))
  then Some (<[Z.to_nat i := v]> a)
  else None.

Definition saveState (p : Painter) : Outcome Painter :=
  if m_oldStateIndex p <? 10 then
    match array_set (m_olderStates p) (m_oldStateIndex p) (getCurrentState p) with
    | Some a => Done (with_oldStateIndex (m_oldStateIndex p + 1) (with_olderStates a p))
    | None => OutOfBounds
    end
  else AssertionFailed.

Definition executeState (state : PainterState) (p : Painter) : Painter :=
  let p := setColor (color state) p in
  let p := setOpacity (opacity state) p in
  let p := setCompositionMode (compositionMode state) p in
  let p := setBlendEquation (blendEquation state) p in
  let p := setClipRect (clipRect state) p in
  let p := setShaderProgram (shaderProgram state) p in
  let p := setAlphaWriting (alphaWriting state) p in
  let p := setTransformMatrix (transformMatrix state) p in
  setTexture (texture state) p.

Definition restoreSavedState (p : Painter) : Outcome Painter :=
  let p := with_oldStateIndex (m_oldStateIndex p - 1) p in
  match array_get (m_olderStates p) (m_oldStateIndex p) with
  | Some state =>
      let p := setResolution (resolution state) p in
      let p := setTransformMatrix (transformMatrix state) p in
      let p := setTextureMatrix (textureMatrix state) p in
      Done (executeState state p)
  | None => OutOfBounds
  end.

(** *** Clearing *)

Definition clear (c : Color) (p : Painter) : Painter :=
  call (glClear GL_COLOR_BUFFER_BIT) (call (glClearColor (rF c) (gF c) (bF c) (aF c)) p).

Definition clearRect (c : Color) (rect : Rect) (p : Painter) : Painter :=
  let oldClipRect := m_clipRect p in
  let p := setClipRect rect p in
  let p := call (glClearColor (rF c) (gF c) (bF c) (aF c)) p in
  let p := call (glClear GL_COLOR_BUFFER_BIT) p in
  setClipRect oldClipRect p.

(** *** The stack of transform matrices *)

Definition pushTransformMatrix (p : Painter) : Outcome Painter :=
  let p := with_transformMatrixStack
             (m_transformMatrixStack p ++ [m_transformMatrix p]) p in
  if Z.of_nat (length (m_transformMatrixStack p)) <? 100
  then Done p
  else AssertionFailed.

Definition popTransformMatrix (p : Painter) : Outcome Painter :=
  if 0 <? Z.of_nat (length (m_transformMatrixStack p)) then
    match last (m_transformMatrixStack p) with
    | Some m =>
        let p := setTransformMatrix m p in
        Done (with_transformMatrixStack (removelast (m_transformMatrixStack p)) p)
    | None => OutOfBounds
    end
  else AssertionFailed.

(** Pushing, with the transform replaced by the next matrix of [ms] after
    each push: the nested use the stack is made for. *)
Fixpoint pushEach (ms : list Matrix3) (p : Painter) : Outcome Painter :=
  match ms with
  | [] => Done p
  | m :: ms' => p' ← pushTransformMatrix p; pushEach ms' (setTransformMatrix m p')
  end.

(** The fields the state machine tracks, as one value (the log left out). *)
Definition tracked (p : Painter) : PainterState :=
  mkPainterState (m_resolution p) (m_transformMatrix p) (m_projectionMatrix p)
                 (m_textureMatrix p) (m_color p) (m_opacity p)
                 (m_compositionMode p) (m_blendEquation p) (m_clipRect p)
                 (m_texture p) (m_shaderProgram p) (m_alphaWriting p).

(** *** refreshState, resetState, saveAndResetState *)


(** The two engine defaults that the constructor does not spell out: the
    default-constructed clip rectangle and transform matrix. *)
Record Defaults := mkDefaults {
  default_clipRect : Rect;
  default_transformMatrix : Matrix3
}.

Variable defaults : Defaults.

(** Modelled from the spec: the [reset...] functions are defined inline in
    painterogl.h, which is not among the sources ("resetState(): restores
    every field to engine defaults"). Each one is the setter of its member
    called with the default: the values the constructor assigns (lines
    31-37), and [defaults] for the clip rectangle and the transform. *)
Definition resetColor (p : Painter) : Painter := setColor Color_white p.
Definition resetOpacity (p : Painter) : Painter := setOpacity f_one p.
Definition resetCompositionMode (p : Painter) : Painter :=
  setCompositionMode CompositionMode_Normal p.
Definition resetBlendEquation (p : Painter) : Painter :=
  setBlendEquation BlendEquation_Add p.
Definition resetClipRect (p : Painter) : Painter :=
  setClipRect (default_clipRect defaults) p.
Definition resetShaderProgram (p : Painter) : Painter := setShaderProgram None p.
Definition resetTexture (p : Painter) : Painter := setTexture None p.
Definition resetAlphaWriting (p : Painter) : Painter := setAlphaWriting false p.
Definition resetTransformMatrix (p : Painter) : Painter :=
  setTransformMatrix (default_transformMatrix defaults) p.

(** Lines 41-52. *)
Definition resetState (p : Painter) : Painter :=
  let p := resetColor p in
  let p := resetOpacity p in
  let p := resetCompositionMode p in
  let p := resetBlendEquation p in
  let p := resetClipRect p in
  let p := resetShaderProgram p in
  let p := resetTexture p in
  let p := resetAlphaWriting p in
  resetTransformMatrix p.

(** Lines 102-106. *)
Definition saveAndResetState (p : Painter) : Outcome Painter :=
  p ← saveState p; Done (resetState p).

(** *** scale, translate, rotate *)

(** The matrix product and transposition of framework/util/matrix.h and
    [std::cos], [std::sin]: taken as given. *)
Record MatrixOps := mkMatrixOps {
  Matrix3_mul : Matrix3 -> Matrix3 -> Matrix3;
  Matrix3_transposed : Matrix3 -> Matrix3;
  f_cos : F -> F;
  f_sin : F -> F
}.

Variable mops : MatrixOps.

Definition scale (x y : F) (p : Painter) : Painter :=
  let scaleMatrix := mkMatrix3 x f_zero f_zero
                               f_zero y f_zero
                               f_zero f_zero f_one in
  setTransformMatrix
    (Matrix3_mul mops (m_transformMatrix p) (Matrix3_transposed mops scaleMatrix)) p.

Definition translate (x y : F) (p : Painter) : Painter :=
  let translateMatrix := mkMatrix3 f_one f_zero x
                                   f_zero f_one y
                                   f_zero f_zero f_one in
  setTransformMatrix
    (Matrix3_mul mops (m_transformMatrix p) (Matrix3_transposed mops translateMatrix)) p.

Definition rotate (angle : F) (p : Painter) : Painter :=
  let rotationMatrix :=
    mkMatrix3 (f_cos mops angle) (f_neg (f_sin mops angle)) f_zero
              (f_sin mops angle) (f_cos mops angle) f_zero
              f_zero f_zero f_one in
  setTransformMatrix
    (Matrix3_mul mops (m_transformMatrix p) (Matrix3_transposed mops rotationMatrix)) p.

(** [rotate(x, y, angle)]: the rotation about a point. *)
Definition rotateAt (x y angle : F) (p : Painter) : Painter :=
  let p := translate (f_neg x) (f_neg y) p in
  let p := rotate angle p in
  translate x y p.

(** A call of one of the four transformations, and a sequence of them. *)
Inductive Transformation :=
| Scale (x y : F)
| Translate (x y : F)
| Rotate (angle : F)
| RotateAt (x y angle : F).

Definition transformBy (t : Transformation) (p : Painter) : Painter :=
  match t with
  | Scale x y => scale x y p
  | Translate x y => translate x y p
  | Rotate angle => rotate angle p
  | RotateAt x y angle => rotateAt x y angle p
  end.

Definition transformAll (ts : list Transformation) (p : Painter) : Painter :=
  fold_left (fun q t => transformBy t q) ts p.

(** *** Invariants *)

(** The stack of saved states: an array of ten and an index into it. *)
Definition snapshotsOk (p : Painter) : Prop :=
  length (m_olderStates p) = 10%nat /\ 0 <= m_oldStateIndex p <= 10.

(** The OpenGL name the painter remembers is the one of the bound texture,
    or 0 when none is bound. *)
Definition glTextureIdOk (p : Painter) : Prop :=
  m_glTextureId p = match m_texture p with
                    | Some t => Texture_getId env t
                    | None => 0
                    end.

End Painter.

Arguments Defaults F : clear implicits.
Arguments MatrixOps F : clear implicits.
Arguments Transformation F : clear implicits.
Arguments Color F : clear implicits.
Arguments Matrix3 F : clear implicits.
Arguments GLCall F : clear implicits.
Arguments Env F : clear implicits.
Arguments PainterState F : clear implicits.
Arguments Painter F : clear implicits.

End PainterOGL.

(** ** client/painter/mapviewpainter.cpp *)

Module MapViewPainter.

(** Conversion to a signed 8-bit integer ([int8], [int_fast8_t]). *)
Definition to_int8 (v : Z) : Z := (v + 128) mod 256 - 128.

(** Modelled from the spec: [Position] (client/position.h) is not among the
    sources: "integer (x, y, z) map coordinate; z is floor/layer index".
    [translated] moves a position by an offset; [translatedToDirection]
    moves it one tile towards a direction (south is +y, east is +x). *)
Record Position := mkPosition { Position_x : Z; Position_y : Z; Position_z : Z }.

Definition Position_translated (p : Position) (dx dy : Z) : Position :=
  mkPosition (Position_x p + dx) (Position_y p + dy) (Position_z p).

Inductive Direction := North | East | South | West.

Definition Position_translatedToDirection (p : Position) (d : Direction) : Position :=
  match d with
  | North => mkPosition (Position_x p) (Position_y p - 1) (Position_z p)
  | East => mkPosition (Position_x p + 1) (Position_y p) (Position_z p)
  | South => mkPosition (Position_x p) (Position_y p + 1) (Position_z p)
  | West => mkPosition (Position_x p - 1) (Position_y p) (Position_z p)
  end.

Definition Position_translatedToDirections (p : Position) (ds : list Direction)
  : list Position :=
  map (Position_translatedToDirection p) ds.

(** The sentinel the framework uses for "no position". *)
Definition Position_invalid : Position := mkPosition 65535 65535 255.

(** Modelled from the spec: [Position::isValid] (client/position.h) is not
    among the sources; the spec speaks of "a missing/invalid camera
    position" and of "a valid hover position". The framework's convention
    is taken: every position but the sentinel is valid. *)
Definition Position_isValid (p : Position) : bool :=
  negb ((Position_x p =? 65535) && (Position_y p =? 65535) && (Position_z p =? 255)).

(** The ground item of a tile, as far as the painter looks at it. *)
Record Item := mkItem { isTranslucent : bool; isTopGround : bool }.

Record Tile := mkTile {
  Tile_getPosition : Position;
  Tile_getGround : option Item;
  Tile_hasGround : bool;
  Tile_isTopGround : bool;
  hasWideThings : bool;
  hasTallThings : bool;
  hasDisplacement : bool;
  hasLight : bool
}.

Record AwareRange := mkAwareRange {
  left : Z; top : Z; right : Z; bottom : Z
}.

Record LightView := mkLightView { isDark : bool }.

Record Missile := mkMissile { Missile_id : Z; Missile_getPosition : Position }.
Record Creature := mkCreature { Creature_id : Z; Creature_getPosition : Position }.
Record Effect := mkEffect { Effect_getId : Z }.

Inductive MessageMode := MESSAGE_NONE | MESSAGE_OTHER (code : Z).

Definition MessageMode_is_none (m : MessageMode) : bool :=
  match m with MESSAGE_NONE => true | MESSAGE_OTHER _ => false end.

Record StaticText := mkStaticText {
  StaticText_id : Z;
  StaticText_getPosition : Position;
  getMessageMode : MessageMode
}.
Record AnimatedText := mkAnimatedText {
  AnimatedText_id : Z;
  AnimatedText_getPosition : Position
}.

Inductive DrawType :=
| DRAWTYPE_MAP
| DRAWTYPE_LIGHT
| DRAWTYPE_CREATURE_INFORMATION
| DRAWTYPE_STATIC_TEXT
| DRAWTYPE_DYNAMIC_TEXT.

Section MapView.

Context {F : Type} {FO : FloatOps F}.

Record RectCache := mkRectCache {
  rect : Rect;
  srcRect : Rect;
  drawOffset : Point;
  horizontalStretchFactor : F;
  verticalStretchFactor : F
}.

(** The members of [MapView] the painter reads. [getCameraPosition] is the
    position that method returns for the view. *)
Record MapView := mkMapView {
  m_mustUpdateVisibleTilesCache : bool;
  m_rectCache : RectCache;
  getCameraPosition : Position;
  m_rectDimension : Rect;
  m_drawLights : bool;
  m_lightView : option LightView;
  m_floorMin : Z;
  m_floorMax : Z;
  m_cachedVisibleTiles : Z -> list Tile;
  m_tileSize : Z;
  m_scaleFactor : F;
  m_viewport : AwareRange;
  m_drawViewportEdge : bool;
  m_crosshairTexture : TexturePtr;
  m_mousePosition : Position;
  m_crosshairEffect : option Effect;
  m_drawNames : bool;
  m_drawHealthBars : bool;
  m_drawManaBar : bool;
  m_drawTexts : bool;
  m_visibleCreatures : list Creature
}.

Definition with_rectCache (c : RectCache) (v : MapView) : MapView :=
  mkMapView (m_mustUpdateVisibleTilesCache v) c (getCameraPosition v)
            (m_rectDimension v) (m_drawLights v) (m_lightView v) (m_floorMin v)
            (m_floorMax v) (m_cachedVisibleTiles v) (m_tileSize v)
            (m_scaleFactor v) (m_viewport v) (m_drawViewportEdge v)
            (m_crosshairTexture v) (m_mousePosition v) (m_crosshairEffect v)
            (m_drawNames v) (m_drawHealthBars v) (m_drawManaBar v)
            (m_drawTexts v) (m_visibleCreatures v).

(** What the painter calls outside this file: methods of [MapView] defined
    in mapview.cpp, the map store [g_map], the draw pool's answer to
    [drawUp] for each draw type during this frame, and three flag
    constants of [Otc]. *)
Record World := mkWorld {
  updateVisibleTilesCache : MapView -> MapView;
  calcFramebufferSource : MapView -> Size -> Rect;
  transformPositionTo2D : MapView -> Position -> Position -> Point;
  g_map_getTile : Position -> option Tile;
  g_map_getFloorMissiles : Z -> list Missile;
  g_map_getStaticTexts : list StaticText;
  g_map_getAnimatedTexts : list AnimatedText;
  drawUp : DrawType -> bool;
  Otc_DrawNames : Z;
  Otc_DrawBars : Z;
  Otc_DrawManaBar : Z
}.

(** The calls the painter makes to its collaborators, in order. Arguments
    that are members of the view itself (scale factor, update flags, the
    light view) are left out. *)
Inductive DrawEvent :=
| LightView_setFloor (z : Z)
| LightView_setShade (p : Point)
| onFloorDrawingStart (z : Z)
| onFloorDrawingEnd (z : Z)
| TilePainter_drawStart (t : Tile)
| TilePainter_drawGround (t : Tile) (dest : Point)
| TilePainter_drawBottom (t : Tile) (dest : Point)
| TilePainter_drawTop (t : Tile) (dest : Point)
| TilePainter_drawEnd (t : Tile)
| ThingPainter_drawMissile (m : Missile) (dest : Point)
| ThingPainter_drawEffect (e : Effect) (dest : Point)
| g_painter_setOpacity (o : F)
| g_painter_resetOpacity
| g_drawPool_addTexturedRect (r : Rect) (t : TexturePtr)
| LightViewPainter_draw
| CreaturePainter_drawInformation (c : Creature) (r : Rect) (dest : Point)
    (offset : Point) (hs vs : F) (flags : Z)
| ThingPainter_drawStaticText (t : StaticText) (p : Point) (r : Rect)
| ThingPainter_drawAnimatedText (t : AnimatedText) (p : Point) (r : Rect).

Variable world : World.

Definition canRenderTile (mapView : MapView) (tile : Tile) (viewPort : AwareRange)
    (lightView : option LightView) : bool :=
  if m_drawViewportEdge mapView
     || match lightView with
        | Some lv => isDark lv && hasLight tile
        | None => false
        end
  then true
  else
    let cameraPosition := getCameraPosition mapView in
    let tilePos := Tile_getPosition tile in
    let dz := to_int8 (Position_z tilePos - Position_z cameraPosition) in
    let checkPos := Position_translated tilePos dz dz in
    if (Position_x cameraPosition - Position_x checkPos >=? left viewPort)
       || ((Position_x checkPos - Position_x cameraPosition =? right viewPort)
           && negb (hasWideThings tile) && negb (hasDisplacement tile))
    then false
    else if (Position_y cameraPosition - Position_y checkPos >=? top viewPort)
       || ((Position_y checkPos - Position_y cameraPosition =? bottom viewPort)
           && negb (hasTallThings tile) && negb (hasDisplacement tile))
    then false
    else if ((Position_x checkPos - Position_x cameraPosition >? right viewPort)
             && (negb (hasWideThings tile) || negb (hasDisplacement tile)))
       || (Position_y checkPos - Position_y cameraPosition >? bottom viewPort)
    then false
    else true.

(** The second disjunct of the test at line 222: lights are drawn, the
    scene is dark and the tile emits light. *)
Definition lightForcesRender (lightView : option LightView) (tile : Tile) : bool :=
  match lightView with
  | Some lv => isDark lv && hasLight tile
  | None => false
  end.

(** The position [canRenderTile] compares with the camera. *)
Definition checkPos (mapView : MapView) (tile : Tile) : Position :=
  let dz := to_int8 (Position_z (Tile_getPosition tile)
                     - Position_z (getCameraPosition mapView)) in
  Position_translated (Tile_getPosition tile) dz dz.

(** *** draw: the floor loop *)

(** Lines 66-72: the first south/east neighbour that has a ground which is
    not a top ground casts a shade at [pos2D], and the search stops. *)
Fixpoint seamShade (pos2D : Point) (ps : list Position) : list DrawEvent :=
  match ps with
  | [] => []
  | pos :: rest =>
      match g_map_getTile world pos with
      | Some nextDownTile =>
          if Tile_hasGround nextDownTile && negb (Tile_isTopGround nextDownTile)
          then [LightView_setShade pos2D]
          else seamShade pos2D rest
      | None => seamShade pos2D rest
      end
  end.

(** Lines 61-78: the shade one tile of the floor above leaves. *)
Definition shadeTile (mapView : MapView) (cameraPosition : Position) (tile : Tile)
  : list DrawEvent :=
  match Tile_getGround tile with
  | Some ground =>
      if negb (isTranslucent ground) then
        let pos2D := transformPositionTo2D world mapView (Tile_getPosition tile) cameraPosition in
        if isTopGround ground then
          let currentPos := Tile_getPosition tile in
          seamShade pos2D (Position_translatedToDirections currentPos [South; East])
          ++ [LightView_setShade (Point_sub_scalar pos2D (m_tileSize mapView))]
        else [LightView_setShade pos2D]
      else []
  | None => []
  end.

(** Lines 56-81. *)
Definition shadeFloorAbove (mapView : MapView) (cameraPosition : Position)
    (lightView : option LightView) (z : Z) : list DrawEvent :=
  match lightView with
  | Some _ =>
      let nextFloor := to_int8 (z - 1) in
      if nextFloor >=? m_floorMin mapView then
        LightView_setFloor nextFloor
        :: flat_map (shadeTile mapView cameraPosition) (m_cachedVisibleTiles mapView nextFloor)
      else []
  | None => []
  end.

(** Lines 87-93. *)
Definition drawGrounds (mapView : MapView) (cameraPosition : Position)
    (lightView : option LightView) (z : Z) : list DrawEvent :=
  flat_map (fun tile =>
    if negb (canRenderTile mapView tile (m_viewport mapView) lightView) then []
    else [TilePainter_drawStart tile;
          TilePainter_drawGround tile
            (transformPositionTo2D world mapView (Tile_getPosition tile) cameraPosition);
          TilePainter_drawEnd tile])
    (m_cachedVisibleTiles mapView z).

(** Lines 95-102. *)
Definition drawItems (mapView : MapView) (cameraPosition : Position)
    (lightView : option LightView) (z : Z) : list DrawEvent :=
  flat_map (fun tile =>
    if negb (canRenderTile mapView tile (m_viewport mapView) lightView) then []
    else [TilePainter_drawStart tile;
          TilePainter_drawBottom tile
            (transformPositionTo2D world mapView (Tile_getPosition tile) cameraPosition);
          TilePainter_drawTop tile
            (transformPositionTo2D world mapView (Tile_getPosition tile) cameraPosition);
          TilePainter_drawEnd tile])
    (m_cachedVisibleTiles mapView z).

(** Lines 104-106. *)
Definition drawMissiles (mapView : MapView) (cameraPosition : Position) (z : Z)
  : list DrawEvent :=
  map (fun missile =>
         ThingPainter_drawMissile missile
           (transformPositionTo2D world mapView (Missile_getPosition missile) cameraPosition))
      (g_map_getFloorMissiles world z).

(** The body of the loop over the floors, lines 56-108. *)
Definition drawFloor (mapView : MapView) (cameraPosition : Position)
    (lightView : option LightView) (z : Z) : list DrawEvent :=
  shadeFloorAbove mapView cameraPosition lightView z
  ++ [onFloorDrawingStart z]
  ++ (match lightView with Some _ => [LightView_setFloor z] | None => [] end)
  ++ drawGrounds mapView cameraPosition lightView z
  ++ drawItems mapView cameraPosition lightView z
  ++ drawMissiles mapView cameraPosition z
  ++ [onFloorDrawingEnd z].

(** [for(int_fast8_t z = ...; z >= m_floorMin; --z)], from the value [z] of
    the counter on. The counter is 8 bits wide and wraps; [fuel] bounds the
    number of iterations, and [None] says that it did not suffice. *)
Fixpoint floorLoop (fuel : nat) (mapView : MapView) (cameraPosition : Position)
    (lightView : option LightView) (z : Z) : option (list DrawEvent) :=
  if z >=? m_floorMin mapView then
    match fuel with
    | O => None
    | S fuel' =>
        rest ← floorLoop fuel' mapView cameraPosition lightView (to_int8 (z - 1));
        Some (drawFloor mapView cameraPosition lightView z ++ rest)
    end
  else Some [].

(** Lines 111-121. *)
Definition drawCrosshair (mapView : MapView) (cameraPosition : Position)
  : list DrawEvent :=
  match m_crosshairTexture mapView with
  | Some _ =>
      if Position_isValid (m_mousePosition mapView) then
        let point := transformPositionTo2D world mapView (m_mousePosition mapView) cameraPosition in
        (match m_crosshairEffect mapView with
         | Some effect =>
             if Effect_getId effect >? 0
             then [ThingPainter_drawEffect effect point; g_painter_setOpacity f_065]
             else []
         | None => []
         end)
        ++ [g_drawPool_addTexturedRect
              (Rect_of_point point (m_tileSize mapView) (m_tileSize mapView))
              (m_crosshairTexture mapView);
            g_painter_resetOpacity]
      else []
  | None => []
  end.

(** *** drawCreatureInformation and drawText *)

Definition drawCreatureInformation (mapView : MapView) : list DrawEvent :=
  if negb (m_drawNames mapView) && negb (m_drawHealthBars mapView)
     && negb (m_drawManaBar mapView) then []
  else if drawUp world DRAWTYPE_CREATURE_INFORMATION then
    let cameraPosition := getCameraPosition mapView in
    let flags := 0 in
    let flags := if m_drawNames mapView then Otc_DrawNames world else flags in
    let flags := if m_drawHealthBars mapView then Z.lor flags (Otc_DrawBars world) else flags in
    let flags := if m_drawManaBar mapView then Z.lor flags (Otc_DrawManaBar world) else flags in
    map (fun creature =>
           CreaturePainter_drawInformation creature (rect (m_rectCache mapView))
             (transformPositionTo2D world mapView (Creature_getPosition creature) cameraPosition)
             (drawOffset (m_rectCache mapView))
             (horizontalStretchFactor (m_rectCache mapView))
             (verticalStretchFactor (m_rectCache mapView)) flags)
        (m_visibleCreatures mapView)
  else [].

(** Lines 194-197 and 210-213: from a map position to the pixel of a text. *)
Definition textPoint (mapView : MapView) (pos cameraPosition : Position) : Point :=
  let p := Point_sub (transformPositionTo2D world mapView pos cameraPosition)
                     (drawOffset (m_rectCache mapView)) in
  let p := mkPoint
             (f_to_int (f_mul (f_of_int (Point_x p)) (horizontalStretchFactor (m_rectCache mapView))))
             (f_to_int (f_mul (f_of_int (Point_y p)) (verticalStretchFactor (m_rectCache mapView)))) in
  Point_add p (Rect_topLeft (rect (m_rectCache mapView))).

Definition drawText (mapView : MapView) : list DrawEvent :=
  if negb (m_drawTexts mapView) then []
  else
    let cameraPosition := getCameraPosition mapView in
    (match g_map_getStaticTexts world with
     | [] => []
     | _ :: _ =>
         if drawUp world DRAWTYPE_STATIC_TEXT then
           flat_map (fun staticText =>
             let pos := StaticText_getPosition staticText in
             if negb (Position_z pos =? Position_z cameraPosition)
                && MessageMode_is_none (getMessageMode staticText)
             then []
             else [ThingPainter_drawStaticText staticText
                     (textPoint mapView pos cameraPosition) (rect (m_rectCache mapView))])
             (g_map_getStaticTexts world)
         else []
     end)
    ++
    (match g_map_getAnimatedTexts world with
     | [] => []
     | _ :: _ =>
         if drawUp world DRAWTYPE_DYNAMIC_TEXT then
           flat_map (fun animatedText =>
             let pos := AnimatedText_getPosition animatedText in
             if negb (Position_z pos =? Position_z cameraPosition) then []
             else [ThingPainter_drawAnimatedText animatedText
                     (textPoint mapView pos cameraPosition) (rect (m_rectCache mapView))])
             (g_map_getAnimatedTexts world)
         else []
     end).

(** *** draw *)

(** Lines 43-49. *)
Definition updateRectCache (mapView : MapView) (r : Rect) : MapView :=
  if negb (Rect_eqb (rect (m_rectCache mapView)) r) then
    let src := calcFramebufferSource world mapView (Rect_size r) in
    with_rectCache
      (mkRectCache r src (Rect_topLeft src)
         (f_div (f_of_int (Rect_width r)) (f_of_int (Rect_width src)))
         (f_div (f_of_int (Rect_height r)) (f_of_int (Rect_height src))))
      mapView
  else mapView.

(** Lines 39-49: the view with its two caches brought up to date. *)
Definition prepareView (mapView : MapView) (r : Rect) : MapView :=
  let mapView := if m_mustUpdateVisibleTilesCache mapView
                 then updateVisibleTilesCache world mapView else mapView in
  updateRectCache mapView r.

(** The frame: the view as [draw] leaves it and the calls made, or [None]
    when the loop over the floors does not end. An 8-bit counter takes at
    most 256 values before it repeats, so 256 iterations are allowed. *)
Definition draw (mapView : MapView) (r : Rect) : option (MapView * list DrawEvent) :=
  let mapView := prepareView mapView r in
  let cameraPosition := getCameraPosition mapView in
  mapEvents ←
    (if drawUp world DRAWTYPE_MAP then
       let lightView := if m_drawLights mapView then m_lightView mapView else None in
       floors ← floorLoop 256 mapView cameraPosition lightView (to_int8 (m_floorMax mapView));
       Some (floors ++ drawCrosshair mapView cameraPosition)
     else Some []);
  Some (mapView,
        mapEvents
        ++ (if m_drawLights mapView && drawUp world DRAWTYPE_LIGHT
            then [LightViewPainter_draw] else [])
        ++ drawCreatureInformation mapView
        ++ drawText mapView).

(** [n] floors counted down from [hi]: hi, hi-1, ..., hi-n+1. *)
Fixpoint countDown (hi : Z) (n : nat) : list Z :=
  match n with
  | O => []
  | S n' => hi :: countDown (hi - 1) n'
  end.

(** The floors from [hi] down to [lo]: hi, hi-1, ..., lo. *)
Definition floorsDescending (hi lo : Z) : list Z :=
  countDown hi (Z.to_nat (hi - lo + 1)).

(** The floors a sequence of calls starts drawing, in order. *)
Definition floorsVisited (evs : list DrawEvent) : list Z :=
  flat_map (fun e => match e with onFloorDrawingStart z => [z] | _ => [] end) evs.

(** Whether a call puts something on the screen (bookkeeping calls of the
    view and of the light view do not). *)
Definition isDrawCall (e : DrawEvent) : bool :=
  match e with
  | LightView_setFloor _ | LightView_setShade _
  | onFloorDrawingStart _ | onFloorDrawingEnd _
  | TilePainter_drawStart _ | TilePainter_drawEnd _
  | g_painter_setOpacity _ | g_painter_resetOpacity => false
  | _ => true
  end.

(** *** Reading the calls of a frame *)

(** The three layers of a tile that [TilePainter] draws. *)
Inductive Layer := GroundLayer | BottomLayer | TopLayer.

(** The tiles of which a sequence of calls draws the given layer, in order. *)
Definition tilesDrawn (layer : Layer) (evs : list DrawEvent) : list Tile :=
  flat_map (fun e =>
    match layer, e with
    | GroundLayer, TilePainter_drawGround t _ => [t]
    | BottomLayer, TilePainter_drawBottom t _ => [t]
    | TopLayer, TilePainter_drawTop t _ => [t]
    | _, _ => []
    end) evs.

(** The start and the end of the drawing of a floor. *)
Inductive FloorMark := FloorStart (z : Z) | FloorEnd (z : Z).

Definition floorMarks (evs : list DrawEvent) : list FloorMark :=
  flat_map (fun e =>
    match e with
    | onFloorDrawingStart z => [FloorStart z]
    | onFloorDrawingEnd z => [FloorEnd z]
    | _ => []
    end) evs.

Definition isTileDraw (e : DrawEvent) : bool :=
  match e with
  | TilePainter_drawGround _ _ | TilePainter_drawBottom _ _
  | TilePainter_drawTop _ _ => true
  | _ => false
  end.

Definition isFloorMark (e : DrawEvent) : bool :=
  match e with
  | onFloorDrawingStart _ | onFloorDrawingEnd _ => true
  | _ => false
  end.

(** A call to the light view or to its painter. *)
Definition isLightCall (e : DrawEvent) : bool :=
  match e with
  | LightView_setFloor _ | LightView_setShade _ | LightViewPainter_draw => true
  | _ => false
  end.

(** Whether the tile at a position stops the seam search of lines 66-72. *)
Definition castsSeam (pos : Position) : bool :=
  match g_map_getTile world pos with
  | Some t => Tile_hasGround t && negb (Tile_isTopGround t)
  | None => false
  end.

(** Calls that are neither a tile layer nor a floor mark. *)
Definition aside (e : DrawEvent) : Prop := isTileDraw e = false /\ isFloorMark e = false.

(** Calls that, besides, do not go to the light view or its painter. *)
Definition plain (e : DrawEvent) : Prop := aside e /\ isLightCall e = false.

(** The calls [draw] makes after the map pass, lines 154-159. *)
Definition overlays (mapView : MapView) : list DrawEvent :=
  (if m_drawLights mapView && drawUp world DRAWTYPE_LIGHT
   then [LightViewPainter_draw] else [])
  ++ drawCreatureInformation mapView
  ++ drawText mapView.

(** The tiles of a floor that [canRenderTile] accepts, in cache order. *)
Definition renderedTiles (mapView : MapView) (lightView : option LightView) (z : Z)
  : list Tile :=
  List.filter (fun tile => canRenderTile mapView tile (m_viewport mapView) lightView)
              (m_cachedVisibleTiles mapView z).

End MapView.

Arguments RectCache F : clear implicits.
Arguments MapView F : clear implicits.
Arguments World F : clear implicits.
Arguments DrawEvent F : clear implicits.

End MapViewPainter.

(** ** Concrete inputs on which the models are run *)

Module Samples.
Import PainterOGL MapViewPainter.

Definition identity : Matrix3 Q :=
  mkMatrix3 1%Q 0%Q 0%Q  0%Q 1%Q 0%Q  0%Q 0%Q 1%Q.

(** Texture number [a] lives at address [a], has OpenGL name [a + 1] and
    the identity as its matrix; a fresh [PainterState] holds [nullptr]. *)
Definition env : Env Q :=
  mkEnv (fun a => Z.of_N a + 1) (fun _ => identity) true true true None.

Definition blankState : PainterState Q :=
  mkPainterState (mkSize (-1) (-1)) identity identity identity Color_white 1%Q
                 CompositionMode_Normal BlendEquation_Add (mkRect 0 0 (-1) (-1))
                 None None false.

(** The painter as its constructor leaves it for a window of 800x600:
    the members the constructor sets, default-constructed matrices, clip
    rectangle and resolution, and then [setResolution(g_window.getSize())]. *)
Definition painter : Painter Q :=
  setResolution env (mkSize 800 600)
    (mkPainter (mkSize (-1) (-1)) identity identity identity Color_white 1%Q
               CompositionMode_Normal BlendEquation_Add (mkRect 0 0 (-1) (-1))
               None None false 0 0 (replicate 10 blankState) [] []).

(** The same painter with texture 7 bound. *)
Definition texturedPainter : Painter Q := setTexture env (Some 7%N) painter.

(** The painter after ten calls of [saveState]. *)
Definition fullPainter : Outcome (Painter Q) := orepeat 10 (saveState env) painter.

(** The engine defaults of the clip rectangle and of the transform. *)
Definition defaults : Defaults Q := mkDefaults (mkRect 0 0 (-1) (-1)) identity.

Definition mul3 (a b : Matrix3 Q) : Matrix3 Q :=
  mkMatrix3
    (m11 a * m11 b + m12 a * m21 b + m13 a * m31 b)%Q
    (m11 a * m12 b + m12 a * m22 b + m13 a * m32 b)%Q
    (m11 a * m13 b + m12 a * m23 b + m13 a * m33 b)%Q
    (m21 a * m11 b + m22 a * m21 b + m23 a * m31 b)%Q
    (m21 a * m12 b + m22 a * m22 b + m23 a * m32 b)%Q
    (m21 a * m13 b + m22 a * m23 b + m23 a * m33 b)%Q
    (m31 a * m11 b + m32 a * m21 b + m33 a * m31 b)%Q
    (m31 a * m12 b + m32 a * m22 b + m33 a * m32 b)%Q
    (m31 a * m13 b + m32 a * m23 b + m33 a * m33 b)%Q.

Definition transposed3 (a : Matrix3 Q) : Matrix3 Q :=
  mkMatrix3 (m11 a) (m21 a) (m31 a)
            (m12 a) (m22 a) (m32 a)
            (m13 a) (m23 a) (m33 a).

(** Matrices over the rationals; cosine and sine are those of the angle 0,
    the only angle the samples rotate by. *)
Definition mops : MatrixOps Q :=
  mkMatrixOps mul3 transposed3 (fun _ => 1%Q) (fun _ => 0%Q).

(** The textured painter after [saveState], and after some work on it:
    another composition mode, clip rectangle and scale. *)
Definition savedPainter : Painter Q :=
  match saveState env texturedPainter with
  | Done p => p
  | _ => texturedPainter
  end.

Definition workedPainter : Painter Q :=
  scale mops 2%Q 2%Q
    (setClipRect (mkRect 0 0 99 99)
       (setCompositionMode env CompositionMode_Multiply savedPainter)).

Definition noCache : RectCache Q :=
  mkRectCache (mkRect 0 0 (-1) (-1)) (mkRect 0 0 (-1) (-1)) (mkPoint 0 0) 1%Q 1%Q.

(** A view of the floors [floorMin..floorMax] around [camera], without
    lights, crosshair or texts. *)
Definition view (camera : Position) (viewport : AwareRange) (edge : bool)
    (floorMin floorMax : Z) (tiles : Z -> list Tile) : MapView Q :=
  mkMapView false noCache camera (mkRect 0 0 479 351) false None
            floorMin floorMax tiles 32 1%Q viewport edge None Position_invalid None
            false false false false [].

(** A world where every draw type is to be rebuilt and a position is
    projected to 32 pixels per tile relative to the camera. *)
Definition world : World Q :=
  mkWorld (fun v => v) (fun _ s => mkRect 0 0 (Size_width s - 1) (Size_height s - 1))
          (fun _ p c => mkPoint ((Position_x p - Position_x c) * 32)
                                ((Position_y p - Position_y c) * 32))
          (fun _ => None) (fun _ => []) [] []
          (fun _ => true) 1 2 4.

(** The same world when the draw pool has every draw type up to date. *)
Definition idleWorld : World Q :=
  mkWorld (fun v => v) (fun _ s => mkRect 0 0 (Size_width s - 1) (Size_height s - 1))
          (fun _ p c => mkPoint ((Position_x p - Position_x c) * 32)
                                ((Position_y p - Position_y c) * 32))
          (fun _ => None) (fun _ => []) [] []
          (fun _ => false) 1 2 4.

Definition range5 : AwareRange := mkAwareRange 5 5 5 5.

(** A bare tile at a position, with the three size flags given. *)
Definition tileAt (p : Position) (wide tall displaced : bool) : Tile :=
  mkTile p None false false wide tall displaced false.

(** Two floors around the camera at (10,10,7): floor 7 holds a tile at the
    camera and one far to the right, floor 6 a tile above the camera. *)
Definition twoFloors (z : Z) : list Tile :=
  if z =? 7 then [tileAt (mkPosition 10 10 7) false false false;
                  tileAt (mkPosition 20 10 7) false false false]
  else if z =? 6 then [tileAt (mkPosition 11 11 6) false true false]
  else [].

Definition twoFloorView : MapView Q :=
  view (mkPosition 10 10 7) range5 false 6 7 twoFloors.

(** A view whose floor range is empty. *)
Definition emptyRangeView : MapView Q :=
  view (mkPosition 10 10 7) range5 false 7 6 twoFloors.

Definition screen : Rect := mkRect 0 0 479 351.

End Samples.

(** * Properties *)

(** ** The tile visibility filter *)

Module MapViewPainterSpec.
Import MapViewPainter.

Section Visibility.

Context {F : Type} {FO : FloatOps F}.
Implicit Types (mapView : MapView F) (tile : Tile) (viewPort : AwareRange).

Lemma canRenderTile_forced mapView tile viewPort lightView :
  m_drawViewportEdge mapView || lightForcesRender lightView tile = true ->
  canRenderTile mapView tile viewPort lightView = true.
Proof.
  intros H. unfold canRenderTile. fold (lightForcesRender lightView tile).
  by rewrite H.
Qed.

(** The three tests of lines 232-239, on the check position. *)
Lemma canRenderTile_tests mapView tile viewPort lightView :
  m_drawViewportEdge mapView = false ->
  lightForcesRender lightView tile = false ->
  let cam := getCameraPosition mapView in
  let chk := checkPos mapView tile in
  canRenderTile mapView tile viewPort lightView =
    negb ((Position_x cam - Position_x chk >=? left viewPort)
          || ((Position_x chk - Position_x cam =? right viewPort)
              && negb (hasWideThings tile) && negb (hasDisplacement tile)))
    && negb ((Position_y cam - Position_y chk >=? top viewPort)
          || ((Position_y chk - Position_y cam =? bottom viewPort)
              && negb (hasTallThings tile) && negb (hasDisplacement tile)))
    && negb (((Position_x chk - Position_x cam >? right viewPort)
              && (negb (hasWideThings tile) || negb (hasDisplacement tile)))
          || (Position_y chk - Position_y cam >? bottom viewPort)).
Proof.
  intros He Hl cam chk. unfold canRenderTile.
  fold (lightForcesRender lightView tile). rewrite He, Hl. cbn [orb].
  fold (checkPos mapView tile). fold chk. fold cam.
  repeat match goal with |- context [if ?b then _ else _] => destruct b end;
    reflexivity.
Qed.

(** C1 (as amended). At the exact right boundary, with the check position
    otherwise inside the viewport and neither the viewport-edge option nor
    the light exception in force, [canRenderTile] returns true exactly when
    the tile has wide things or displacement: one flag is enough, and the
    result is false only when both are absent. *)
Theorem canRenderTile_at_right_boundary mapView tile viewPort lightView :
  m_drawViewportEdge mapView = false ->
  lightForcesRender lightView tile = false ->
  Position_x (checkPos mapView tile) - Position_x (getCameraPosition mapView)
    = right viewPort ->
  Position_x (getCameraPosition mapView) - Position_x (checkPos mapView tile)
    < left viewPort ->
  Position_y (getCameraPosition mapView) - Position_y (checkPos mapView tile)
    < top viewPort ->
  Position_y (checkPos mapView tile) - Position_y (getCameraPosition mapView)
    < bottom viewPort ->
  canRenderTile mapView tile viewPort lightView
    = hasWideThings tile || hasDisplacement tile.
Proof.
  intros He Hl Hr Hx Hy Hb.
  rewrite (canRenderTile_tests mapView tile viewPort lightView He Hl). cbv zeta.
  rewrite Hr, Z.eqb_refl.
  replace (_ >=? left viewPort) with false by (symmetry; lia).
  replace (_ >=? top viewPort) with false by (symmetry; lia).
  replace (_ =? bottom viewPort) with false by (symmetry; lia).
  replace (right viewPort >? right viewPort) with false by (symmetry; lia).
  replace (_ >? bottom viewPort) with false by (symmetry; lia).
  by destruct (hasWideThings tile), (hasDisplacement tile).
Qed.

(** C2 (as amended). With neither the viewport-edge option nor the light
    exception in force, a tile whose check position lies at or beyond the
    left or the top boundary is not rendered, whatever its wide, tall and
    displacement flags are. *)
Theorem canRenderTile_left_top_boundary mapView tile viewPort lightView :
  m_drawViewportEdge mapView = false ->
  lightForcesRender lightView tile = false ->
  Position_x (getCameraPosition mapView) - Position_x (checkPos mapView tile)
    >= left viewPort
  \/ Position_y (getCameraPosition mapView) - Position_y (checkPos mapView tile)
    >= top viewPort ->
  canRenderTile mapView tile viewPort lightView = false.
Proof.
  intros He Hl Hedge.
  rewrite (canRenderTile_tests mapView tile viewPort lightView He Hl). cbv zeta.
  destruct Hedge as [Hx | Hy].
  - replace (_ >=? left viewPort) with true by (symmetry; lia). reflexivity.
  - replace (_ >=? top viewPort) with true by (symmetry; lia).
    cbn [orb negb andb]. by rewrite andb_false_r.
Qed.

End Visibility.

(** C1, witness: camera (10,10,7), viewport 5/5/5/5, a tile five columns
    to the right with wide things only. *)
Lemma canRenderTile_at_right_boundary_witness :
  canRenderTile (Samples.view (mkPosition 10 10 7) Samples.range5 false 0 7 (fun _ => []))
                (Samples.tileAt (mkPosition 15 10 7) true false false)
                Samples.range5 None
  = true.
Proof.
  apply (canRenderTile_at_right_boundary
           (Samples.view (mkPosition 10 10 7) Samples.range5 false 0 7 (fun _ => []))
           (Samples.tileAt (mkPosition 15 10 7) true false false)
           Samples.range5 None); reflexivity.
Defined.

(** C1, as stated, fails: at the exact right boundary a tile with wide
    things but no displacement is rendered, and so is a tile with
    displacement but no wide things. *)
Lemma canRenderTile_right_boundary_one_flag :
  let mapView := Samples.view (mkPosition 10 10 7) Samples.range5 false 0 7 (fun _ => []) in
  let wideOnly := Samples.tileAt (mkPosition 15 10 7) true false false in
  let displacedOnly := Samples.tileAt (mkPosition 15 10 7) false false true in
  Position_x (checkPos mapView wideOnly) - Position_x (getCameraPosition mapView)
    = right Samples.range5
  /\ hasDisplacement wideOnly = false
  /\ canRenderTile mapView wideOnly Samples.range5 None = true
  /\ Position_x (checkPos mapView displacedOnly) - Position_x (getCameraPosition mapView)
    = right Samples.range5
  /\ hasWideThings displacedOnly = false
  /\ canRenderTile mapView displacedOnly Samples.range5 None = true.
Proof. repeat split. Qed.

(** C2, witness: camera (10,10,7), viewport 5/5/5/5, a tile five columns
    to the left carrying all three flags. *)
Lemma canRenderTile_left_top_boundary_witness :
  canRenderTile (Samples.view (mkPosition 10 10 7) Samples.range5 false 0 7 (fun _ => []))
                (Samples.tileAt (mkPosition 5 10 7) true true true)
                Samples.range5 None
  = false.
Proof.
  apply (canRenderTile_left_top_boundary
           (Samples.view (mkPosition 10 10 7) Samples.range5 false 0 7 (fun _ => []))
           (Samples.tileAt (mkPosition 5 10 7) true true true)
           Samples.range5 None); [reflexivity | reflexivity | left; vm_compute; discriminate].
Defined.

(** C2, as stated, fails: at the left boundary, and at the top boundary, a
    tile with wide things, tall things and displacement is not rendered;
    the flags make no exception there. *)
Lemma canRenderTile_left_top_no_exception :
  let mapView := Samples.view (mkPosition 10 10 7) Samples.range5 false 0 7 (fun _ => []) in
  let atLeft := Samples.tileAt (mkPosition 5 10 7) true true true in
  let atTop := Samples.tileAt (mkPosition 10 5 7) true true true in
  Position_x (getCameraPosition mapView) - Position_x (checkPos mapView atLeft)
    = left Samples.range5
  /\ canRenderTile mapView atLeft Samples.range5 None = false
  /\ Position_y (getCameraPosition mapView) - Position_y (checkPos mapView atTop)
    = top Samples.range5
  /\ canRenderTile mapView atTop Samples.range5 None = false.
Proof. repeat split. Qed.

(** The two scenarios of the specification. *)
Example canRenderTile_at_camera :
  canRenderTile (Samples.view (mkPosition 10 10 7) Samples.range5 false 0 7 (fun _ => []))
                (Samples.tileAt (mkPosition 10 10 7) false false false)
                Samples.range5 None = true.
Proof. reflexivity. Qed.

Example canRenderTile_far_right :
  canRenderTile (Samples.view (mkPosition 10 10 7) Samples.range5 false 0 7 (fun _ => []))
                (Samples.tileAt (mkPosition 20 10 7) false false false)
                Samples.range5 None = false.
Proof. reflexivity. Qed.

(** ** The frame: the loop over the floors *)

Lemma to_int8_small v : -128 <= v <= 127 -> to_int8 v = v.
Proof. intros H. unfold to_int8. rewrite Z.mod_small; lia. Qed.

Lemma countDown_In hi n z : In z (countDown hi n) <-> hi - Z.of_nat n < z <= hi.
Proof.
  revert hi. induction n as [|n IH]; intros hi; cbn [countDown In].
  - lia.
  - rewrite IH. lia.
Qed.

Lemma floorsDescending_In hi lo z : In z (floorsDescending hi lo) <-> lo <= z <= hi.
Proof. unfold floorsDescending. rewrite countDown_In. lia. Qed.

Lemma floorsDescending_step hi lo :
  lo <= hi -> floorsDescending hi lo = hi :: floorsDescending (hi - 1) lo.
Proof.
  intros H. unfold floorsDescending.
  replace (hi - lo + 1) with (Z.succ (hi - 1 - lo + 1)) by lia.
  rewrite Z2Nat.inj_succ by lia. reflexivity.
Qed.

Lemma floorsDescending_empty hi lo : hi < lo -> floorsDescending hi lo = [].
Proof.
  intros H. unfold floorsDescending.
  replace (Z.to_nat (hi - lo + 1)) with O by lia. reflexivity.
Qed.

Section Frame.

Context {F : Type} {FO : FloatOps F}.
Variable world : World F.
Implicit Types (mapView : MapView F) (evs : list (DrawEvent F)).

Lemma floorsVisited_app evs1 evs2 :
  floorsVisited (evs1 ++ evs2) = floorsVisited evs1 ++ floorsVisited evs2.
Proof. unfold floorsVisited. apply flat_map_app. Qed.

Lemma floorsVisited_flat_map {A} (f : A -> list (DrawEvent F)) (l : list A) :
  (forall a, floorsVisited (f a) = []) -> floorsVisited (flat_map f l) = [].
Proof.
  intros Hf. induction l as [|a l IH]; cbn [flat_map]; [reflexivity|].
  by rewrite floorsVisited_app, Hf, IH.
Qed.

Lemma floorsVisited_seamShade pos2D ps :
  floorsVisited (seamShade world pos2D ps) = [].
Proof.
  induction ps as [|pos ps IH]; cbn [seamShade]; [reflexivity|].
  destruct (g_map_getTile world pos) as [t|]; [|exact IH].
  destruct (Tile_hasGround t && negb (Tile_isTopGround t)); [reflexivity | exact IH].
Qed.

Lemma floorsVisited_shadeTile mapView cam tile :
  floorsVisited (shadeTile world mapView cam tile) = [].
Proof.
  unfold shadeTile. destruct (Tile_getGround tile) as [g|]; [|reflexivity].
  destruct (isTranslucent g); cbn [negb]; [reflexivity|].
  destruct (isTopGround g); [|reflexivity].
  by rewrite floorsVisited_app, floorsVisited_seamShade.
Qed.

Lemma floorsVisited_shadeFloorAbove mapView cam lightView z :
  floorsVisited (shadeFloorAbove world mapView cam lightView z) = [].
Proof.
  unfold shadeFloorAbove. destruct lightView; [|reflexivity].
  destruct (_ >=? _); [|reflexivity].
  change (LightView_setFloor ?a :: ?l) with ([LightView_setFloor (F:=F) a] ++ l).
  rewrite floorsVisited_app. cbn [app]. apply floorsVisited_flat_map.
  intros t. apply floorsVisited_shadeTile.
Qed.

Lemma floorsVisited_drawGrounds mapView cam lightView z :
  floorsVisited (drawGrounds world mapView cam lightView z) = [].
Proof.
  unfold drawGrounds. apply floorsVisited_flat_map. intros t.
  by destruct (canRenderTile _ _ _ _).
Qed.

Lemma floorsVisited_drawItems mapView cam lightView z :
  floorsVisited (drawItems world mapView cam lightView z) = [].
Proof.
  unfold drawItems. apply floorsVisited_flat_map. intros t.
  by destruct (canRenderTile _ _ _ _).
Qed.

Lemma floorsVisited_drawMissiles mapView cam z :
  floorsVisited (drawMissiles world mapView cam z) = [].
Proof.
  unfold drawMissiles. induction (g_map_getFloorMissiles world z); by cbn.
Qed.

(** One turn of the loop starts exactly one floor: its own. *)
Lemma floorsVisited_drawFloor mapView cam lightView z :
  floorsVisited (drawFloor world mapView cam lightView z) = [z].
Proof.
  unfold drawFloor. rewrite !floorsVisited_app.
  rewrite floorsVisited_shadeFloorAbove, floorsVisited_drawGrounds,
    floorsVisited_drawItems, floorsVisited_drawMissiles.
  by destruct lightView.
Qed.

Lemma floorsVisited_drawFloors mapView cam lightView zs :
  floorsVisited (flat_map (drawFloor world mapView cam lightView) zs) = zs.
Proof.
  induction zs as [|z zs IH]; cbn [flat_map]; [reflexivity|].
  by rewrite floorsVisited_app, floorsVisited_drawFloor, IH.
Qed.

Lemma floorsVisited_drawCrosshair mapView cam :
  floorsVisited (drawCrosshair world mapView cam) = [].
Proof.
  unfold drawCrosshair. destruct (m_crosshairTexture mapView); [|reflexivity].
  destruct (Position_isValid _); [|reflexivity].
  rewrite floorsVisited_app. destruct (m_crosshairEffect mapView) as [e|]; [|reflexivity].
  by destruct (Effect_getId e >? 0).
Qed.

Lemma floorsVisited_drawCreatureInformation mapView :
  floorsVisited (drawCreatureInformation world mapView) = [].
Proof.
  unfold drawCreatureInformation.
  destruct (_ && _); [reflexivity|]. destruct (drawUp _ _); [|reflexivity].
  induction (m_visibleCreatures mapView); by cbn.
Qed.

Lemma floorsVisited_drawText mapView :
  floorsVisited (drawText world mapView) = [].
Proof.
  unfold drawText. destruct (negb _); [reflexivity|].
  rewrite floorsVisited_app.
  assert (forall A (f : A -> list (DrawEvent F)) (l : list A) (b : bool),
             (forall a, floorsVisited (f a) = []) ->
             floorsVisited (match l with
                            | [] => []
                            | _ :: _ => if b then flat_map f l else []
                            end) = []) as Hm.
  { intros A f l b Hf. destruct l; [reflexivity|]. destruct b; [|reflexivity].
    by apply floorsVisited_flat_map. }
  rewrite !Hm; [reflexivity | |].
  - intros a. cbv zeta. by destruct (negb _).
  - intros a. cbv zeta. by destruct (_ && _).
Qed.

(** The loop, in closed form: started at a floor [z] that an 8-bit counter
    holds, with a lower bound above -128, it ends and runs its body once
    for each floor from [z] down to [m_floorMin]. *)
Lemma floorLoop_closed mapView cam lightView fuel z :
  -128 < m_floorMin mapView ->
  m_floorMin mapView - 1 <= z <= 127 ->
  (Z.to_nat (z - m_floorMin mapView + 1) <= fuel)%nat ->
  floorLoop world fuel mapView cam lightView z
  = Some (flat_map (drawFloor world mapView cam lightView)
                   (floorsDescending z (m_floorMin mapView))).
Proof.
  intros Hmin. revert z. induction fuel as [|fuel IH]; intros z Hz Hfuel.
  - cbn [floorLoop]. replace (z >=? m_floorMin mapView) with false by (symmetry; lia).
    rewrite floorsDescending_empty by lia. reflexivity.
  - cbn [floorLoop]. destruct (Z.geb_spec z (m_floorMin mapView)) as [Hge | Hlt].
    + rewrite to_int8_small by lia. rewrite IH by lia.
      rewrite (floorsDescending_step z) by lia. reflexivity.
    + rewrite floorsDescending_empty by lia. reflexivity.
Qed.

(** [draw], in closed form. *)
Lemma draw_closed mapView r :
  let mv := prepareView world mapView r in
  drawUp world DRAWTYPE_MAP = true ->
  -128 < m_floorMin mv -> m_floorMin mv <= m_floorMax mv -> m_floorMax mv <= 127 ->
  draw world mapView r =
    Some (mv,
          (flat_map (drawFloor world mv (getCameraPosition mv)
                       (if m_drawLights mv then m_lightView mv else None))
                    (floorsDescending (m_floorMax mv) (m_floorMin mv))
           ++ drawCrosshair world mv (getCameraPosition mv))
          ++ (if m_drawLights mv && drawUp world DRAWTYPE_LIGHT
              then [LightViewPainter_draw] else [])
          ++ drawCreatureInformation world mv
          ++ drawText world mv).
Proof.
  intros mv Hup Hmin Hle Hmax. unfold draw. fold mv. rewrite Hup.
  rewrite to_int8_small by lia.
  rewrite floorLoop_closed by lia. reflexivity.
Qed.

(** C9. When the draw pool asks for the map to be drawn, and the floor
    bounds of the view satisfy floorMin <= floorMax and fit the 8-bit
    counter of the loop, [draw] ends and starts the floors floorMax,
    floorMax - 1, ..., floorMin in this order, each one once. *)
Theorem draw_visits_floors_descending mapView r :
  drawUp world DRAWTYPE_MAP = true ->
  -128 < m_floorMin (prepareView world mapView r) ->
  m_floorMin (prepareView world mapView r) <= m_floorMax (prepareView world mapView r) ->
  m_floorMax (prepareView world mapView r) <= 127 ->
  exists evs,
    draw world mapView r = Some (prepareView world mapView r, evs)
    /\ floorsVisited evs
       = floorsDescending (m_floorMax (prepareView world mapView r))
                          (m_floorMin (prepareView world mapView r)).
Proof.
  intros Hup Hmin Hle Hmax. eexists. split.
  - apply draw_closed; assumption.
  - rewrite !floorsVisited_app, floorsVisited_drawFloors, floorsVisited_drawCrosshair,
      floorsVisited_drawCreatureInformation, floorsVisited_drawText.
    destruct (_ && _); cbn; by rewrite !app_nil_r.
Qed.

(** C3 (as amended). [draw] does not look at whether the camera position is
    valid: with an invalid camera position, when the draw pool asks for the
    map to be drawn, the frame is drawn as for any other position. Every
    cached tile of every floor between floorMin and floorMax that
    [canRenderTile] accepts has its ground drawn. *)
Theorem draw_with_invalid_camera mapView r z tile :
  Position_isValid (getCameraPosition (prepareView world mapView r)) = false ->
  drawUp world DRAWTYPE_MAP = true ->
  -128 < m_floorMin (prepareView world mapView r) ->
  m_floorMax (prepareView world mapView r) <= 127 ->
  m_floorMin (prepareView world mapView r) <= z <= m_floorMax (prepareView world mapView r) ->
  In tile (m_cachedVisibleTiles (prepareView world mapView r) z) ->
  canRenderTile (prepareView world mapView r) tile
                (m_viewport (prepareView world mapView r))
                (if m_drawLights (prepareView world mapView r)
                 then m_lightView (prepareView world mapView r) else None) = true ->
  exists evs,
    draw world mapView r = Some (prepareView world mapView r, evs)
    /\ In (TilePainter_drawGround tile
             (transformPositionTo2D world (prepareView world mapView r)
                (Tile_getPosition tile)
                (getCameraPosition (prepareView world mapView r)))) evs.
Proof.
  intros _ Hup Hmin Hmax Hz Htile Hcan. eexists. split.
  - apply draw_closed; [assumption | lia ..].
  - apply in_or_app. left. apply in_or_app. left.
    apply in_flat_map. exists z. split; [by apply floorsDescending_In|].
    unfold drawFloor. apply in_or_app. right. apply in_or_app. right.
    apply in_or_app. right. apply in_or_app. left.
    unfold drawGrounds. apply in_flat_map. exists tile. split; [assumption|].
    rewrite Hcan. cbn. auto.
Qed.

End Frame.

(** The floors are listed by position: the i-th one is [hi - i]. *)
Lemma floorsDescending_nth hi lo i :
  0 <= i <= hi - lo -> nth_error (floorsDescending hi lo) (Z.to_nat i) = Some (hi - i).
Proof.
  unfold floorsDescending. intros H.
  assert (Hn : (Z.to_nat i < Z.to_nat (hi - lo + 1))%nat) by lia.
  replace (hi - i) with (hi - Z.of_nat (Z.to_nat i)) by lia.
  generalize dependent (Z.to_nat (hi - lo + 1)). generalize (Z.to_nat i). clear.
  intros k n. revert hi k. induction n as [|n IH]; intros hi k Hk; [lia|].
  destruct k as [|k]; cbn [countDown nth_error].
  - f_equal. lia.
  - rewrite IH by lia. f_equal. lia.
Qed.

Lemma floorsDescending_length hi lo :
  length (floorsDescending hi lo) = Z.to_nat (hi - lo + 1).
Proof.
  unfold floorsDescending. generalize (Z.to_nat (hi - lo + 1)). intros n.
  revert hi. induction n as [|n IH]; intros hi; cbn [countDown length]; [reflexivity|].
  by rewrite IH.
Qed.

(** C9, witness: floors 0 to 7 are visited as 7, 6, ..., 0. *)
Lemma draw_visits_floors_descending_witness :
  exists evs,
    draw Samples.world
         (Samples.view (mkPosition 10 10 7) Samples.range5 false 0 7 (fun _ => []))
         (mkRect 0 0 479 351)
    = Some (prepareView Samples.world
              (Samples.view (mkPosition 10 10 7) Samples.range5 false 0 7 (fun _ => []))
              (mkRect 0 0 479 351), evs)
    /\ floorsVisited evs = [7; 6; 5; 4; 3; 2; 1; 0].
Proof.
  apply (draw_visits_floors_descending Samples.world
           (Samples.view (mkPosition 10 10 7) Samples.range5 false 0 7 (fun _ => []))
           (mkRect 0 0 479 351));
    [reflexivity | reflexivity | vm_compute; discriminate | vm_compute; discriminate].
Defined.

(** C3, witness: the camera is the invalid position, floor 7 holds one
    tile, and the view shows the viewport edges. *)
Lemma draw_with_invalid_camera_witness :
  exists evs,
    draw Samples.world
         (Samples.view Position_invalid Samples.range5 true 7 7
            (fun z => if z =? 7
                      then [Samples.tileAt (mkPosition 100 100 7) false false false]
                      else []))
         (mkRect 0 0 479 351)
    = Some (prepareView Samples.world
              (Samples.view Position_invalid Samples.range5 true 7 7
                 (fun z => if z =? 7
                           then [Samples.tileAt (mkPosition 100 100 7) false false false]
                           else []))
              (mkRect 0 0 479 351), evs)
    /\ In (TilePainter_drawGround
             (Samples.tileAt (mkPosition 100 100 7) false false false)
             (mkPoint (-2093920) (-2093920))) evs.
Proof.
  apply (draw_with_invalid_camera Samples.world
           (Samples.view Position_invalid Samples.range5 true 7 7
              (fun z => if z =? 7
                        then [Samples.tileAt (mkPosition 100 100 7) false false false]
                        else []))
           (mkRect 0 0 479 351) 7
           (Samples.tileAt (mkPosition 100 100 7) false false false));
    [reflexivity | reflexivity | reflexivity | vm_compute; discriminate
    | split; vm_compute; discriminate | left; reflexivity | reflexivity].
Defined.

(** C3, as stated, fails: with the invalid position as camera, [draw] ends
    and has drawn the ground, the bottom and the top of the tile on floor 7. *)
Lemma invalid_camera_frame_is_drawn :
  let mapView :=
    Samples.view Position_invalid Samples.range5 true 7 7
      (fun z => if z =? 7
                then [Samples.tileAt (mkPosition 100 100 7) false false false]
                else []) in
  Position_isValid (getCameraPosition mapView) = false
  /\ exists mv evs,
       draw Samples.world mapView (mkRect 0 0 479 351) = Some (mv, evs)
       /\ List.filter isDrawCall evs
          = [TilePainter_drawGround
               (Samples.tileAt (mkPosition 100 100 7) false false false)
               (mkPoint (-2093920) (-2093920));
             TilePainter_drawBottom
               (Samples.tileAt (mkPosition 100 100 7) false false false)
               (mkPoint (-2093920) (-2093920));
             TilePainter_drawTop
               (Samples.tileAt (mkPosition 100 100 7) false false false)
               (mkPoint (-2093920) (-2093920))].
Proof.
  split; [reflexivity|]. eexists. eexists. split; reflexivity.
Qed.

End MapViewPainterSpec.

(** ** The painter state machine *)

Module PainterOGLSpec.
Import PainterOGL.

Lemma Size_eqb_eq a b : Size_eqb a b = true <-> a = b.
Proof.
  unfold Size_eqb. destruct a, b; cbn. rewrite andb_true_iff, !Z.eqb_eq.
  split; [intros [-> ->]; reflexivity | intros [= -> ->]; auto].
Qed.

Lemma Size_eqb_refl a : Size_eqb a a = true.
Proof. by apply Size_eqb_eq. Qed.

Lemma Rect_eqb_eq a b : Rect_eqb a b = true <-> a = b.
Proof.
  unfold Rect_eqb. destruct a, b; cbn. rewrite !andb_true_iff, !Z.eqb_eq.
  split; [intros [[[-> ->] ->] ->]; reflexivity | intros [= -> -> -> ->]; auto].
Qed.

Lemma Rect_eqb_refl a : Rect_eqb a a = true.
Proof. by apply Rect_eqb_eq. Qed.

Lemma Rect_eqb_sym a b : Rect_eqb a b = Rect_eqb b a.
Proof.
  destruct (Rect_eqb a b) eqn:E.
  - apply Rect_eqb_eq in E as ->. symmetry. apply Rect_eqb_refl.
  - destruct (Rect_eqb b a) eqn:E'; [|reflexivity].
    apply Rect_eqb_eq in E' as ->. by rewrite Rect_eqb_refl in E.
Qed.

Lemma ptr_eqb_eq a b : ptr_eqb a b = true <-> a = b.
Proof.
  destruct a as [x|], b as [y|]; cbn; try (split; congruence).
  rewrite N.eqb_eq. split; congruence.
Qed.

Lemma ptr_eqb_refl a : ptr_eqb a a = true.
Proof. by apply ptr_eqb_eq. Qed.

Lemma CompositionMode_eqb_eq a b : CompositionMode_eqb a b = true <-> a = b.
Proof. destruct a, b; cbn; split; congruence. Qed.

Lemma CompositionMode_eqb_refl a : CompositionMode_eqb a a = true.
Proof. by destruct a. Qed.

Lemma BlendEquation_eqb_eq a b : BlendEquation_eqb a b = true <-> a = b.
Proof. destruct a, b; cbn; split; congruence. Qed.

Lemma BlendEquation_eqb_refl a : BlendEquation_eqb a a = true.
Proof. by destruct a. Qed.

Section Setters.

Context {F : Type} {FO : FloatOps F}.
Variable env : Env F.
Implicit Types (p : Painter F).

(** *** A setter called with the stored value does nothing *)

Lemma setCompositionMode_same p : setCompositionMode env (m_compositionMode p) p = p.
Proof. unfold setCompositionMode. by rewrite CompositionMode_eqb_refl. Qed.

Lemma setBlendEquation_same p : setBlendEquation env (m_blendEquation p) p = p.
Proof. unfold setBlendEquation. by rewrite BlendEquation_eqb_refl. Qed.

Lemma setClipRect_same p : setClipRect (m_clipRect p) p = p.
Proof. unfold setClipRect. by rewrite Rect_eqb_refl. Qed.

Lemma setAlphaWriting_same p : setAlphaWriting (m_alphaWriting p) p = p.
Proof. unfold setAlphaWriting. by rewrite Bool.eqb_reflx. Qed.

Lemma setTexture_same p : setTexture env (m_texture p) p = p.
Proof. unfold setTexture. by rewrite ptr_eqb_refl. Qed.

Lemma setResolution_same p : setResolution env (m_resolution p) p = p.
Proof. unfold setResolution. by rewrite Size_eqb_refl. Qed.

(** *** After a setter the member holds the argument *)

Lemma setCompositionMode_stored v p : m_compositionMode (setCompositionMode env v p) = v.
Proof.
  unfold setCompositionMode. destruct (CompositionMode_eqb _ _) eqn:E.
  - by apply CompositionMode_eqb_eq.
  - unfold updateGlCompositionMode. cbn.
    destruct v; [destruct (canUseBlendFuncSeparate env)|..]; reflexivity.
Qed.

Lemma setBlendEquation_stored v p : m_blendEquation (setBlendEquation env v p) = v.
Proof.
  unfold setBlendEquation. destruct (BlendEquation_eqb _ _) eqn:E.
  - by apply BlendEquation_eqb_eq.
  - unfold updateGlBlendEquation. cbn.
    destruct (canUseBlendEquation env); [destruct v|]; reflexivity.
Qed.

Lemma setClipRect_stored v p : m_clipRect (setClipRect v p) = v.
Proof.
  unfold setClipRect. destruct (Rect_eqb _ _) eqn:E.
  - by apply Rect_eqb_eq.
  - unfold updateGlClipRect. cbn. by destruct (Rect_isValid v).
Qed.

Lemma setAlphaWriting_stored v p : m_alphaWriting (setAlphaWriting v p) = v.
Proof.
  unfold setAlphaWriting. destruct (Bool.eqb _ _) eqn:E.
  - by apply Bool.eqb_prop.
  - unfold updateGlAlphaWriting. cbn. by destruct v.
Qed.

Lemma setTexture_stored v p : m_texture (setTexture env v p) = v.
Proof.
  unfold setTexture. destruct (ptr_eqb _ _) eqn:E.
  - by apply ptr_eqb_eq.
  - unfold updateGlTexture. destruct v as [t|]; cbn;
      repeat match goal with |- context [if ?b then _ else _] => destruct b; cbn end;
      reflexivity.
Qed.

Lemma setResolution_stored v p : m_resolution (setResolution env v p) = v.
Proof.
  unfold setResolution. destruct (Size_eqb _ _) eqn:E.
  - symmetry. by apply Size_eqb_eq.
  - by destruct (g_painter_is_this env).
Qed.

(** C7. Each of the six setters, called with the value the painter already
    stores, returns the painter as it was, so that no OpenGL call is
    logged; after any call the member holds the argument; and a second
    call with the same argument changes nothing, so that the OpenGL update
    behind the setter is issued by the first call at most. *)
Theorem setters_skip_unchanged_values p :
  (setCompositionMode env (m_compositionMode p) p = p
   /\ setBlendEquation env (m_blendEquation p) p = p
   /\ setClipRect (m_clipRect p) p = p
   /\ setAlphaWriting (m_alphaWriting p) p = p
   /\ setTexture env (m_texture p) p = p
   /\ setResolution env (m_resolution p) p = p)
  /\ (forall v, m_compositionMode (setCompositionMode env v p) = v
                /\ setCompositionMode env v (setCompositionMode env v p)
                   = setCompositionMode env v p)
  /\ (forall v, m_blendEquation (setBlendEquation env v p) = v
                /\ setBlendEquation env v (setBlendEquation env v p)
                   = setBlendEquation env v p)
  /\ (forall v, m_clipRect (setClipRect v p) = v
                /\ setClipRect v (setClipRect v p) = setClipRect v p)
  /\ (forall v, m_alphaWriting (setAlphaWriting v p) = v
                /\ setAlphaWriting v (setAlphaWriting v p) = setAlphaWriting v p)
  /\ (forall v, m_texture (setTexture env v p) = v
                /\ setTexture env v (setTexture env v p) = setTexture env v p)
  /\ (forall v, m_resolution (setResolution env v p) = v
                /\ setResolution env v (setResolution env v p) = setResolution env v p).
Proof.
  split; [|repeat split].
  - repeat split;
      auto using setCompositionMode_same, setBlendEquation_same, setClipRect_same,
        setAlphaWriting_same, setTexture_same, setResolution_same.
  - apply setCompositionMode_stored.
  - rewrite <- (setCompositionMode_stored v p) at 1. apply setCompositionMode_same.
  - apply setBlendEquation_stored.
  - rewrite <- (setBlendEquation_stored v p) at 1. apply setBlendEquation_same.
  - apply setClipRect_stored.
  - rewrite <- (setClipRect_stored v p) at 1. apply setClipRect_same.
  - apply setAlphaWriting_stored.
  - rewrite <- (setAlphaWriting_stored v p) at 1. apply setAlphaWriting_same.
  - apply setTexture_stored.
  - rewrite <- (setTexture_stored v p) at 1. apply setTexture_same.
  - apply setResolution_stored.
  - rewrite <- (setResolution_stored v p) at 1. apply setResolution_same.
Qed.

End Setters.

(** C7, the scenario of the specification: from the normal mode, setting
    the multiply mode twice logs one call of the blend function. *)
Example setCompositionMode_twice_one_call :
  gl (setCompositionMode Samples.env CompositionMode_Multiply
        (setCompositionMode Samples.env CompositionMode_Multiply Samples.painter))
  = gl Samples.painter ++ [glBlendFunc GL_DST_COLOR GL_ONE_MINUS_SRC_ALPHA].
Proof. reflexivity. Qed.

Section Resolution.

Context {F : Type} {FO : FloatOps F}.
Variable env : Env F.
Implicit Types (p : Painter F).

(** C8. Called with a resolution that differs from the stored one,
    [setResolution] stores it and sets the projection matrix to
    [[2/w, 0, 0], [0, -2/h, 0], [-1, 1, 1]]; called with the stored
    resolution, it leaves the painter, and so the projection matrix and the
    log of OpenGL calls, as they were. *)
Theorem setResolution_projectionMatrix p (res : Size) :
  res <> m_resolution p ->
  m_projectionMatrix (setResolution env res p)
  = mkMatrix3 (f_div f_two (f_of_int (Size_width res))) f_zero f_zero
              f_zero (f_div (f_neg f_two) (f_of_int (Size_height res))) f_zero
              (f_neg f_one) f_one f_one
  /\ m_resolution (setResolution env res p) = res
  /\ setResolution env res (setResolution env res p) = setResolution env res p
  /\ setResolution env (m_resolution p) p = p.
Proof.
  intros Hne. repeat split.
  - unfold setResolution. destruct (Size_eqb res (m_resolution p)) eqn:E.
    + by apply Size_eqb_eq in E.
    + by destruct (g_painter_is_this env).
  - apply setResolution_stored.
  - rewrite <- (setResolution_stored env res p) at 1. apply setResolution_same.
  - apply setResolution_same.
Qed.

End Resolution.

(** C8, witness: the painter of an 800x600 window is given 1024x768. *)
Lemma setResolution_projectionMatrix_witness :
  m_projectionMatrix (setResolution Samples.env (mkSize 1024 768) Samples.painter)
  = mkMatrix3 (2 / inject_Z 1024)%Q 0%Q 0%Q  0%Q (- (2) / inject_Z 768)%Q 0%Q
              (- (1))%Q 1%Q 1%Q
  /\ m_resolution (setResolution Samples.env (mkSize 1024 768) Samples.painter)
     = mkSize 1024 768
  /\ setResolution Samples.env (mkSize 1024 768)
       (setResolution Samples.env (mkSize 1024 768) Samples.painter)
     = setResolution Samples.env (mkSize 1024 768) Samples.painter
  /\ setResolution Samples.env (m_resolution Samples.painter) Samples.painter
     = Samples.painter.
Proof.
  refine (setResolution_projectionMatrix Samples.env Samples.painter (mkSize 1024 768) _).
  discriminate.
Defined.

Section Clearing.

Context {F : Type} {FO : FloatOps F}.
Implicit Types (p : Painter F).

(** C10. [clearRect] leaves the clip rectangle as it found it, and every
    other member of the painter too: the painter it returns is the one it
    was given, with a longer log of OpenGL calls. While it clears, the clip
    rectangle is the target rectangle. *)
Theorem clearRect_restores_clipRect (c : Color F) (rect : Rect) p :
  m_clipRect (clearRect c rect p) = m_clipRect p
  /\ tracked (clearRect c rect p) = tracked p
  /\ clearRect c rect p = with_gl (gl (clearRect c rect p)) p
  /\ m_clipRect (setClipRect rect p) = rect.
Proof.
  assert (H : clearRect c rect p = with_gl (gl (clearRect c rect p)) p).
  { unfold clearRect, setClipRect at 2.
    destruct (Rect_eqb (m_clipRect p) rect) eqn:E.
    - apply Rect_eqb_eq in E. unfold setClipRect at 1 3. rewrite E, Rect_eqb_refl.
      unfold setClipRect. cbn. rewrite E, Rect_eqb_refl. by destruct p.
    - unfold setClipRect at 1 3. rewrite E.
      unfold setClipRect, updateGlClipRect. cbn.
      destruct (Rect_isValid rect); cbn; rewrite Rect_eqb_sym, E;
        cbn; destruct (Rect_isValid (m_clipRect p)); by destruct p. }
  repeat split.
  - by rewrite H.
  - by rewrite H.
  - exact H.
  - apply setClipRect_stored.
Qed.

End Clearing.

Section Snapshots.

Context {F : Type} {FO : FloatOps F}.
Variable env : Env F.
Implicit Types (p : Painter F).

Lemma array_get_set {A} (a : list A) i v a' :
  array_set a i v = Some a' -> array_get a' i = Some v.
Proof.
  unfold array_set, array_get. destruct (Z.leb_spec 0 i); cbn; [|discriminate].
  destruct (Z.ltb_spec i (Z.of_nat (length a))); [|discriminate].
  intros [= <-]. apply list_lookup_insert_eq. lia.
Qed.

(** [saveState] followed by [restoreSavedState], in closed form: the slot
    of the stack is written, and of all the setters that [restoreSavedState]
    runs only [setTexture] can change something: it is given the texture
    of a default-initialised state, not the bound one. *)
Lemma save_then_restore_closed p :
  0 <= m_oldStateIndex p < 10 ->
  length (m_olderStates p) = 10%nat ->
  (saveState env p ≫= restoreSavedState env)
  = Done (setTexture env (default_state_texture env)
            (with_olderStates
               (<[Z.to_nat (m_oldStateIndex p) := getCurrentState env p]> (m_olderStates p))
               p)).
Proof.
  intros Hidx Hlen. unfold saveState.
  replace (m_oldStateIndex p <? 10) with true by (symmetry; lia).
  destruct (array_set _ _ _) as [a|] eqn:Ha.
  2:{ unfold array_set in Ha. rewrite Hlen in Ha. change (Z.of_nat 10) with 10 in Ha.
      replace (0 <=? m_oldStateIndex p) with true in Ha by (symmetry; lia).
      replace (m_oldStateIndex p <? 10) with true in Ha by (symmetry; lia).
      discriminate. }
  pose proof (array_get_set _ _ _ _ Ha) as Hget.
  assert (a = <[Z.to_nat (m_oldStateIndex p) := getCurrentState env p]> (m_olderStates p)) as <-.
  { unfold array_set in Ha. destruct (_ && _); congruence. }
  cbn [mbind Outcome_bind]. unfold restoreSavedState.
  destruct p as [res tm pm xm col op cm be cr tex sh aw gid idx states stack log].
  cbn in *. replace (idx + 1 - 1) with idx by lia. rewrite Hget.
  unfold getCurrentState, executeState. cbn.
  unfold setResolution. cbn. rewrite Size_eqb_refl.
  unfold setCompositionMode. cbn. rewrite CompositionMode_eqb_refl.
  unfold setBlendEquation. cbn. rewrite BlendEquation_eqb_refl.
  unfold setClipRect. cbn. rewrite Rect_eqb_refl.
  unfold setAlphaWriting. cbn. rewrite Bool.eqb_reflx.
  reflexivity.
Qed.

(** What [saveState]; [restoreSavedState] keeps: every tracked member but
    the texture (and, through [setTexture], the texture matrix). *)
Lemma saveState_restoreSavedState_kept p :
  0 <= m_oldStateIndex p < 10 ->
  length (m_olderStates p) = 10%nat ->
  exists p',
    (saveState env p ≫= restoreSavedState env) = Done p'
    /\ m_color p' = m_color p
    /\ m_opacity p' = m_opacity p
    /\ m_compositionMode p' = m_compositionMode p
    /\ m_blendEquation p' = m_blendEquation p
    /\ m_clipRect p' = m_clipRect p
    /\ m_transformMatrix p' = m_transformMatrix p
    /\ m_resolution p' = m_resolution p
    /\ m_projectionMatrix p' = m_projectionMatrix p
    /\ m_shaderProgram p' = m_shaderProgram p
    /\ m_alphaWriting p' = m_alphaWriting p
    /\ m_oldStateIndex p' = m_oldStateIndex p
    /\ m_texture p' = default_state_texture env.
Proof.
  intros Hidx Hlen. eexists. split; [by apply save_then_restore_closed|].
  rewrite setTexture_stored.
  unfold setTexture, updateGlTexture.
  destruct (default_state_texture env); cbn;
    repeat match goal with |- context [if ?b then _ else _] => destruct b; cbn end;
    repeat split; reflexivity.
Qed.

(** Saving is refused when ten states are saved. *)
Lemma saveState_full p : 10 <= m_oldStateIndex p -> saveState env p = AssertionFailed.
Proof.
  intros H. unfold saveState.
  by replace (m_oldStateIndex p <? 10) with false by (symmetry; lia).
Qed.

(** C5, the failing half. With no state saved, [restoreSavedState] hits no
    assertion: it lowers the index to -1 and reads [m_olderStates[-1]],
    outside the array. *)
Theorem restoreSavedState_underflow p :
  m_oldStateIndex p = 0 ->
  restoreSavedState env p = OutOfBounds
  /\ restoreSavedState env p <> AssertionFailed.
Proof.
  intros H. assert (restoreSavedState env p = OutOfBounds) as ->; [|by split].
  unfold restoreSavedState. cbn. by rewrite H.
Qed.

End Snapshots.

(** C5, witness: the painter as constructed, with no state saved. The other
    half of the claim holds: an eleventh [saveState] hits the assertion. *)
Lemma restoreSavedState_underflow_witness :
  restoreSavedState Samples.env Samples.painter = OutOfBounds
  /\ restoreSavedState Samples.env Samples.painter <> AssertionFailed.
Proof.
  refine (restoreSavedState_underflow Samples.env Samples.painter _). reflexivity.
Defined.

Example saveState_eleventh :
  (Samples.fullPainter ≫= saveState Samples.env) = AssertionFailed.
Proof. reflexivity. Qed.

(** C4, at the failing input. The painter has texture 7 bound and no state
    saved; after [saveState]; [restoreSavedState] no texture is bound,
    while colour, opacity, composition mode, blend equation, clip
    rectangle and transform matrix are as before. *)
Theorem saveState_restoreSavedState_loses_texture :
  m_texture Samples.texturedPainter = Some 7%N
  /\ m_oldStateIndex Samples.texturedPainter = 0
  /\ exists p',
       (saveState Samples.env Samples.texturedPainter
          ≫= restoreSavedState Samples.env) = Done p'
       /\ m_texture p' = None
       /\ m_color p' = m_color Samples.texturedPainter
       /\ m_opacity p' = m_opacity Samples.texturedPainter
       /\ m_compositionMode p' = m_compositionMode Samples.texturedPainter
       /\ m_blendEquation p' = m_blendEquation Samples.texturedPainter
       /\ m_clipRect p' = m_clipRect Samples.texturedPainter
       /\ m_transformMatrix p' = m_transformMatrix Samples.texturedPainter.
Proof.
  split; [reflexivity|]. split; [reflexivity|].
  eexists. split; [reflexivity|]. repeat split.
Qed.

Section TransformStack.

Context {F : Type}.
Implicit Types (p : Painter F) (ms st : list (Matrix3 F)).

Lemma pushTransformMatrix_ok p :
  (length (m_transformMatrixStack p) < 99)%nat ->
  pushTransformMatrix p
  = Done (with_transformMatrixStack (m_transformMatrixStack p ++ [m_transformMatrix p]) p).
Proof.
  intros H. unfold pushTransformMatrix. cbn. rewrite length_app. cbn.
  destruct (Z.ltb_spec (Z.of_nat (length (m_transformMatrixStack p) + 1)) 100);
    [reflexivity | lia].
Qed.

(** The push that would make the stack hold 100 matrices is refused. *)
Lemma pushTransformMatrix_full p :
  (99 <= length (m_transformMatrixStack p))%nat ->
  pushTransformMatrix p = AssertionFailed.
Proof.
  intros H. unfold pushTransformMatrix. cbn. rewrite length_app. cbn.
  destruct (Z.ltb_spec (Z.of_nat (length (m_transformMatrixStack p) + 1)) 100);
    [lia | reflexivity].
Qed.

Lemma popTransformMatrix_snoc p st m :
  m_transformMatrixStack p = st ++ [m] ->
  popTransformMatrix p
  = Done (with_transformMatrixStack st (setTransformMatrix m p)).
Proof.
  intros H. unfold popTransformMatrix. rewrite H, length_app. cbn [length].
  destruct (Z.ltb_spec 0 (Z.of_nat (length st + 1))); [|lia].
  rewrite last_snoc. cbn. by rewrite H, removelast_last.
Qed.

Lemma last_cons_default ms : forall (m d : Matrix3 F),
  List.last (m :: ms) d = List.last ms m.
Proof.
  induction ms as [|a ms IH]; intros m d; [reflexivity|].
  change (List.last (m :: a :: ms) d) with (List.last (a :: ms) d).
  rewrite (IH a d), (IH a m). reflexivity.
Qed.

(** Pushes that stay below the bound succeed; the stack grows by the
    transforms that were current at each push. *)
Lemma pushEach_ok ms : forall p,
  (length (m_transformMatrixStack p) + length ms < 100)%nat ->
  exists p',
    pushEach ms p = Done p'
    /\ m_transformMatrixStack p'
       = m_transformMatrixStack p ++ removelast (m_transformMatrix p :: ms)
    /\ m_transformMatrix p' = List.last ms (m_transformMatrix p).
Proof.
  induction ms as [|m ms IH]; intros p Hlen.
  - exists p. cbn. by rewrite app_nil_r.
  - cbn [pushEach]. rewrite pushTransformMatrix_ok by (cbn in Hlen; lia).
    cbn [mbind Outcome_bind].
    destruct (IH (setTransformMatrix m
                    (with_transformMatrixStack
                       (m_transformMatrixStack p ++ [m_transformMatrix p]) p)))
      as (p' & Hp' & Hst & Htm).
    { cbn. rewrite length_app. cbn in *. lia. }
    exists p'. split; [exact Hp'|]. split.
    + rewrite Hst. cbn [m_transformMatrixStack m_transformMatrix setTransformMatrix
                        with_transformMatrix with_transformMatrixStack].
      rewrite <- app_assoc. reflexivity.
    + rewrite Htm. cbn [m_transformMatrix setTransformMatrix with_transformMatrix].
      symmetry. apply last_cons_default.
Qed.

(** Popping as many matrices as [l] holds takes the stack back to what was
    below [l], and the transform to the bottom matrix of [l]. *)
Lemma popTransformMatrix_all l : forall p st,
  m_transformMatrixStack p = st ++ l ->
  exists p',
    orepeat (length l) popTransformMatrix p = Done p'
    /\ m_transformMatrixStack p' = st
    /\ m_transformMatrix p' = hd (m_transformMatrix p) l.
Proof.
  induction l as [|m l IH] using rev_ind; intros p st Hst.
  - exists p. cbn. by rewrite app_nil_r in Hst.
  - rewrite length_app, Nat.add_comm. cbn [length Nat.add orepeat].
    rewrite (popTransformMatrix_snoc p (st ++ l) m) by (by rewrite Hst, app_assoc).
    cbn [mbind Outcome_bind].
    destruct (IH (with_transformMatrixStack (st ++ l) (setTransformMatrix m p)) st)
      as (p' & Hp' & Hst' & Htm); [reflexivity|].
    exists p'. split; [exact Hp'|]. split; [exact Hst'|].
    rewrite Htm. by destruct l.
Qed.

(** C6 (as amended). From an empty stack, up to 99 pushes succeed, the
    transform being changed at will after each of them; as many pops then
    succeed, empty the stack and bring the transform back to its value
    before the first push. When 99 matrices are on the stack, the next
    push, the 100th, fails its assertion. *)
Theorem transform_stack_push_pop p ms :
  m_transformMatrixStack p = [] ->
  (length ms <= 99)%nat ->
  exists p1,
    pushEach ms p = Done p1
    /\ length (m_transformMatrixStack p1) = length ms
    /\ (exists p2,
          orepeat (length ms) popTransformMatrix p1 = Done p2
          /\ m_transformMatrixStack p2 = []
          /\ m_transformMatrix p2 = m_transformMatrix p)
    /\ (length ms = 99%nat -> pushTransformMatrix p1 = AssertionFailed).
Proof.
  intros Hempty Hlen.
  destruct (pushEach_ok ms p) as (p1 & Hp1 & Hst & Htm); [rewrite Hempty; cbn; lia|].
  rewrite Hempty in Hst. cbn [app] in Hst.
  assert (Hl : length (removelast (m_transformMatrix p :: ms)) = length ms).
  { clear. generalize (m_transformMatrix p). induction ms as [|m ms IH]; intros x.
    - reflexivity.
    - change (removelast (x :: m :: ms)) with (x :: removelast (m :: ms)).
      cbn [length]. by rewrite IH. }
  exists p1. split; [exact Hp1|]. split; [by rewrite Hst|]. split.
  - destruct (popTransformMatrix_all (removelast (m_transformMatrix p :: ms)) p1 [])
      as (p2 & Hp2 & Hst2 & Htm2); [by rewrite Hst|].
    rewrite Hl in Hp2. exists p2. split; [exact Hp2|]. split; [exact Hst2|].
    rewrite Htm2, Htm. destruct ms; reflexivity.
  - intros H99. apply pushTransformMatrix_full. rewrite Hst, Hl. lia.
Qed.

End TransformStack.

(** C6, witness: 99 pushes on the painter as constructed, the transform
    left alone in between. *)
Lemma transform_stack_push_pop_witness :
  exists p1,
    pushEach (replicate 99 (m_transformMatrix Samples.painter)) Samples.painter = Done p1
    /\ length (m_transformMatrixStack p1) = 99%nat
    /\ (exists p2,
          orepeat 99 popTransformMatrix p1 = Done p2
          /\ m_transformMatrixStack p2 = []
          /\ m_transformMatrix p2 = m_transformMatrix Samples.painter)
    /\ (99%nat = 99%nat -> pushTransformMatrix p1 = AssertionFailed).
Proof.
  refine (transform_stack_push_pop Samples.painter
            (replicate 99 (m_transformMatrix Samples.painter)) _ _).
  - reflexivity.
  - vm_compute. lia.
Defined.

(** C6, as stated, fails: from the empty stack the 100th push hits the
    assertion, while 99 pushes go through. *)
Lemma pushTransformMatrix_hundredth_fails :
  m_transformMatrixStack Samples.painter = []
  /\ orepeat 100 pushTransformMatrix Samples.painter = AssertionFailed
  /\ exists p, orepeat 99 pushTransformMatrix Samples.painter = Done p.
Proof.
  split; [reflexivity|]. split; [vm_compute; reflexivity|].
  eexists. vm_compute. reflexivity.
Qed.

End PainterOGLSpec.

(** * Further properties of the painter state machine *)

Module PainterOGLExtra.
Import PainterOGL PainterOGLSpec.

Section Frames.

Context {F : Type} {FO : FloatOps F}.
Variable env : Env F.
Implicit Types (p : Painter F).

(** Each setter with a test, as an assignment plus a longer log. *)

Lemma setCompositionMode_nf v p :
  setCompositionMode env v p
  = with_gl (gl (setCompositionMode env v p)) (with_compositionMode v p).
Proof.
  unfold setCompositionMode. destruct (CompositionMode_eqb _ _) eqn:E.
  - apply CompositionMode_eqb_eq in E. destruct p; cbn in *. by subst.
  - unfold updateGlCompositionMode. cbn.
    destruct v, (canUseBlendFuncSeparate env); by destruct p.
Qed.

Lemma setBlendEquation_nf v p :
  setBlendEquation env v p
  = with_gl (gl (setBlendEquation env v p)) (with_blendEquation v p).
Proof.
  unfold setBlendEquation. destruct (BlendEquation_eqb _ _) eqn:E.
  - apply BlendEquation_eqb_eq in E. destruct p; cbn in *. by subst.
  - unfold updateGlBlendEquation. cbn.
    destruct v, (canUseBlendEquation env); by destruct p.
Qed.

Lemma setClipRect_nf v p :
  setClipRect v p = with_gl (gl (setClipRect v p)) (with_clipRect v p).
Proof.
  unfold setClipRect. destruct (Rect_eqb _ _) eqn:E.
  - apply Rect_eqb_eq in E. destruct p; cbn in *. by subst.
  - unfold updateGlClipRect. cbn. destruct (Rect_isValid v); by destruct p.
Qed.

Lemma setAlphaWriting_nf v p :
  setAlphaWriting v p = with_gl (gl (setAlphaWriting v p)) (with_alphaWriting v p).
Proof.
  unfold setAlphaWriting. destruct (Bool.eqb _ _) eqn:E.
  - apply Bool.eqb_prop in E. destruct p; cbn in *. by subst.
  - unfold updateGlAlphaWriting. cbn. destruct v; by destruct p.
Qed.

Lemma setTexture_nf v p :
  setTexture env v p
  = with_gl (gl (setTexture env v p))
      (with_glTextureId (m_glTextureId (setTexture env v p))
         (with_textureMatrix (m_textureMatrix (setTexture env v p))
            (with_texture v p))).
Proof.
  unfold setTexture. destruct (ptr_eqb _ _) eqn:E.
  - apply ptr_eqb_eq in E. destruct p; cbn in *. by subst.
  - unfold updateGlTexture. destruct v as [t|]; cbn;
      repeat match goal with |- context [if ?b then _ else _] => destruct b; cbn end;
      by destruct p.
Qed.

Lemma setResolution_nf v p :
  setResolution env v p
  = with_gl (gl (setResolution env v p))
      (with_projectionMatrix (m_projectionMatrix (setResolution env v p))
         (with_resolution v p)).
Proof.
  unfold setResolution. destruct (Size_eqb _ _) eqn:E.
  - apply Size_eqb_eq in E. destruct p; cbn in *. by subst.
  - destruct (g_painter_is_this env); by destruct p.
Qed.

End Frames.

(** Reading a member through a chain of setters, outermost setter first. *)
Ltac painter_fields :=
  cbn [m_resolution m_transformMatrix m_projectionMatrix m_textureMatrix
       m_color m_opacity m_compositionMode m_blendEquation m_clipRect
       m_texture m_shaderProgram m_alphaWriting m_glTextureId
       m_oldStateIndex m_olderStates m_transformMatrixStack gl
       with_resolution with_transformMatrix with_projectionMatrix
       with_textureMatrix with_color with_opacity with_compositionMode
       with_blendEquation with_clipRect with_texture with_shaderProgram
       with_alphaWriting with_glTextureId with_oldStateIndex
       with_olderStates with_transformMatrixStack with_gl].

Ltac through_setters :=
  unfold setColor, setOpacity, setShaderProgram, setTransformMatrix,
    setProjectionMatrix, setTextureMatrix;
  painter_fields;
  repeat (match goal with
          | |- _ (setTexture ?e ?v ?q) = _ => rewrite (setTexture_nf e v q)
          | |- _ (setAlphaWriting ?v ?q) = _ => rewrite (setAlphaWriting_nf v q)
          | |- _ (setClipRect ?v ?q) = _ => rewrite (setClipRect_nf v q)
          | |- _ (setBlendEquation ?e ?v ?q) = _ => rewrite (setBlendEquation_nf e v q)
          | |- _ (setCompositionMode ?e ?v ?q) = _ =>
              rewrite (setCompositionMode_nf e v q)
          | |- _ (setResolution ?e ?v ?q) = _ => rewrite (setResolution_nf e v q)
          end;
          painter_fields).

Section Snapshots.

Context {F : Type} {FO : FloatOps F}.
Variable env : Env F.
Implicit Types (p q : Painter F) (st : PainterState F).

(** What [executeState] leaves in the members it sets and in the stack of
    saved states. *)
Lemma executeState_members st p :
  let p' := executeState env st p in
  m_color p' = color st
  /\ m_opacity p' = opacity st
  /\ m_compositionMode p' = compositionMode st
  /\ m_blendEquation p' = blendEquation st
  /\ m_clipRect p' = clipRect st
  /\ m_shaderProgram p' = shaderProgram st
  /\ m_alphaWriting p' = alphaWriting st
  /\ m_transformMatrix p' = transformMatrix st
  /\ m_texture p' = texture st
  /\ m_resolution p' = m_resolution p
  /\ m_oldStateIndex p' = m_oldStateIndex p
  /\ m_olderStates p' = m_olderStates p
  /\ m_transformMatrixStack p' = m_transformMatrixStack p.
Proof.
  cbv zeta. unfold executeState. split_and!; through_setters; reflexivity.
Qed.

Lemma restoreSavedState_eq p st :
  array_get (m_olderStates p) (m_oldStateIndex p - 1) = Some st ->
  restoreSavedState env p
  = Done (executeState env st
            (setTextureMatrix (textureMatrix st)
               (setTransformMatrix (transformMatrix st)
                  (setResolution env (resolution st)
                     (with_oldStateIndex (m_oldStateIndex p - 1) p))))).
Proof.
  intros Hslot. unfold restoreSavedState.
  cbn [m_olderStates m_oldStateIndex with_oldStateIndex]. by rewrite Hslot.
Qed.

(** The general step behind every restore: when the slot below the index
    holds [st], [restoreSavedState] succeeds, steps the index down, leaves
    the array alone and puts [st] into the members. *)
Lemma restoreSavedState_slot p st :
  array_get (m_olderStates p) (m_oldStateIndex p - 1) = Some st ->
  exists p',
    restoreSavedState env p = Done p'
    /\ m_oldStateIndex p' = m_oldStateIndex p - 1
    /\ m_olderStates p' = m_olderStates p
    /\ m_transformMatrixStack p' = m_transformMatrixStack p
    /\ m_resolution p' = resolution st
    /\ m_color p' = color st
    /\ m_opacity p' = opacity st
    /\ m_compositionMode p' = compositionMode st
    /\ m_blendEquation p' = blendEquation st
    /\ m_clipRect p' = clipRect st
    /\ m_shaderProgram p' = shaderProgram st
    /\ m_alphaWriting p' = alphaWriting st
    /\ m_transformMatrix p' = transformMatrix st
    /\ m_texture p' = texture st.
Proof.
  intros Hslot. rewrite (restoreSavedState_eq p st Hslot).
  eexists. split; [reflexivity|].
  destruct (executeState_members st
              (setTextureMatrix (textureMatrix st)
                 (setTransformMatrix (transformMatrix st)
                    (setResolution env (resolution st)
                       (with_oldStateIndex (m_oldStateIndex p - 1) p)))))
    as (Hc & Ho & Hm & Hb & Hr & Hs & Ha & Ht & Hx & Hres & Hi & Hst & Hts).
  rewrite Hc, Ho, Hm, Hb, Hr, Hs, Ha, Ht, Hx, Hres, Hi, Hst, Hts.
  split_and!; try reflexivity; through_setters; reflexivity.
Qed.

End Snapshots.

Section Updates.

Context {F : Type} {FO : FloatOps F}.
Variable env : Env F.
Implicit Types (p : Painter F).

(** Each [updateGl...] only writes to the log. *)


Lemma updateGlCompositionMode_log p :
  exists c, updateGlCompositionMode env p = with_gl (gl p ++ [c]) p.
Proof.
  unfold updateGlCompositionMode.
  destruct (m_compositionMode p), (canUseBlendFuncSeparate env); eexists; reflexivity.
Qed.


Lemma updateGlClipRect_log p :
  exists c1 c2, updateGlClipRect p = with_gl (gl p ++ [c1; c2]) p.
Proof.
  unfold updateGlClipRect. destruct (Rect_isValid (m_clipRect p));
    eexists; eexists; unfold call; cbn; rewrite <- app_assoc; reflexivity.
Qed.


Lemma updateGlAlphaWriting_log p :
  exists c, updateGlAlphaWriting p = with_gl (gl p ++ [c]) p.
Proof.
  unfold updateGlAlphaWriting. destruct (m_alphaWriting p); eexists; reflexivity.
Qed.



(** X2. Clearing the rectangle that is the clip rectangle already is a plain
    [clear]: no scissor call is made. *)
Theorem clearRect_of_clipRect (c : Color F) p :
  clearRect c (m_clipRect p) p = clear c p.
Proof.
  unfold clearRect, clear. rewrite setClipRect_same.
  unfold setClipRect. cbn [m_clipRect call with_gl]. by rewrite Rect_eqb_refl.
Qed.

End Updates.

Section Discipline.

Context {F : Type} {FO : FloatOps F}.
Variable env : Env F.
Implicit Types (p q : Painter F) (st : PainterState F).

(** What a successful [saveState] did. *)
Lemma saveState_Done p p1 :
  saveState env p = Done p1 ->
  0 <= m_oldStateIndex p < 10
  /\ m_oldStateIndex p1 = m_oldStateIndex p + 1
  /\ length (m_olderStates p1) = length (m_olderStates p)
  /\ array_get (m_olderStates p1) (m_oldStateIndex p1 - 1) = Some (getCurrentState env p)
  /\ (forall i, i <> m_oldStateIndex p ->
        array_get (m_olderStates p1) i = array_get (m_olderStates p) i)
  /\ tracked p1 = tracked p
  /\ gl p1 = gl p.
Proof.
  unfold saveState. destruct (Z.ltb_spec (m_oldStateIndex p) 10); [|discriminate].
  destruct (array_set _ _ _) as [a|] eqn:Ha; [|discriminate]. intros [= <-].
  pose proof (array_get_set _ _ _ _ Ha) as Hget.
  unfold array_set in Ha.
  destruct (Z.leb_spec 0 (m_oldStateIndex p)); cbn in Ha; [|discriminate].
  destruct (Z.ltb_spec (m_oldStateIndex p) (Z.of_nat (length (m_olderStates p))));
    [|discriminate].
  injection Ha as <-.
  cbn [m_oldStateIndex m_olderStates with_oldStateIndex with_olderStates].
  split_and!; try lia; try reflexivity.
  - apply length_insert.
  - by replace (m_oldStateIndex p + 1 - 1) with (m_oldStateIndex p) by lia.
  - intros i Hi. unfold array_get. destruct (Z.leb_spec 0 i); [|reflexivity].
    apply list_lookup_insert_ne. lia.
Qed.

Lemma saveState_ok p :
  snapshotsOk p -> m_oldStateIndex p < 10 ->
  exists p1, saveState env p = Done p1.
Proof.
  intros [Hlen Hidx] Hlt. unfold saveState, array_set. rewrite Hlen.
  change (Z.of_nat 10) with 10.
  replace (m_oldStateIndex p <? 10) with true by (symmetry; lia).
  replace (0 <=? m_oldStateIndex p) with true by (symmetry; lia).
  eexists. reflexivity.
Qed.

(** X3. Under the invariant of the stack of saved states (an array of ten,
    an index between 0 and 10), [saveState] fails its assertion exactly
    when ten states are saved and otherwise succeeds, stepping the index
    up; [restoreSavedState] leaves the array exactly when no state is saved
    and otherwise succeeds, stepping the index down. Both keep the
    invariant, and [saveState] never leaves the array. *)
Theorem snapshots_discipline p :
  snapshotsOk p ->
  match saveState env p with
  | Done p' => m_oldStateIndex p < 10 /\ snapshotsOk p'
               /\ m_oldStateIndex p' = m_oldStateIndex p + 1
  | AssertionFailed => m_oldStateIndex p = 10
  | OutOfBounds => False
  end
  /\ match restoreSavedState env p with
     | Done p' => 0 < m_oldStateIndex p /\ snapshotsOk p'
                  /\ m_oldStateIndex p' = m_oldStateIndex p - 1
     | AssertionFailed => False
     | OutOfBounds => m_oldStateIndex p = 0
     end.
Proof.
  intros [Hlen Hidx]. split.
  - destruct (Z.ltb_spec (m_oldStateIndex p) 10) as [Hlt | Hge].
    + destruct (saveState_ok p (conj Hlen Hidx) Hlt) as [p1 H1]. rewrite H1.
      destruct (saveState_Done p p1 H1) as (_ & Hi & Hl & _).
      split; [lia|]. split; [|exact Hi]. split; [congruence | lia].
    + rewrite saveState_full by lia. lia.
  - destruct (Z.ltb_spec 0 (m_oldStateIndex p)) as [Hpos | Hzero].
    + destruct (lookup_lt_is_Some_2 (m_olderStates p) (Z.to_nat (m_oldStateIndex p - 1)))
        as [st Hst]; [lia|].
      assert (Hslot : array_get (m_olderStates p) (m_oldStateIndex p - 1) = Some st).
      { unfold array_get. by replace (0 <=? m_oldStateIndex p - 1) with true
          by (symmetry; lia). }
      destruct (restoreSavedState_slot env p st Hslot) as (p' & -> & Hi & Hl & _).
      split; [lia|]. split; [|exact Hi]. split; [congruence | lia].
    + assert (m_oldStateIndex p = 0) as H0 by lia.
      unfold restoreSavedState, array_get.
      cbn [m_olderStates m_oldStateIndex with_oldStateIndex]. by rewrite H0.
Qed.

(** X4. From a painter that satisfies the invariant, exactly as many
    further states can be saved as the array has free slots: 10 minus the
    index calls of [saveState] succeed, and the next one fails its
    assertion. *)
Theorem saveState_capacity p :
  snapshotsOk p ->
  exists p',
    orepeat (Z.to_nat (10 - m_oldStateIndex p)) (saveState env) p = Done p'
    /\ m_oldStateIndex p' = 10
    /\ snapshotsOk p'
    /\ saveState env p' = AssertionFailed.
Proof.
  remember (Z.to_nat (10 - m_oldStateIndex p)) as n eqn:Hn.
  revert p Hn. induction n as [|n IH]; intros p Hn [Hlen Hidx].
  - exists p. cbn [orepeat]. split; [reflexivity|]. split; [lia|].
    split; [by split | apply saveState_full; lia].
  - cbn [orepeat].
    destruct (saveState_ok p (conj Hlen Hidx)) as [p1 H1]; [lia|]. rewrite H1.
    destruct (saveState_Done p p1 H1) as (_ & Hi & Hl & _).
    cbn [mbind Outcome_bind]. apply IH; [lia|]. split; [congruence | lia].
Qed.

(** X5. Whatever is done between a [saveState] and the matching
    [restoreSavedState], as long as it leaves the stack of saved states as
    [saveState] left it, the restore succeeds and brings back the
    resolution, colour, opacity, composition mode, blend equation, clip
    rectangle, shader program, alpha writing and transform matrix that the
    painter had when the state was saved, and the index it had. The
    texture is not brought back: it becomes the texture of a
    default-initialised state. *)
Theorem saveState_work_restoreSavedState p p1 q :
  saveState env p = Done p1 ->
  m_olderStates q = m_olderStates p1 ->
  m_oldStateIndex q = m_oldStateIndex p1 ->
  exists p2,
    restoreSavedState env q = Done p2
    /\ m_oldStateIndex p2 = m_oldStateIndex p
    /\ m_resolution p2 = m_resolution p
    /\ m_color p2 = m_color p
    /\ m_opacity p2 = m_opacity p
    /\ m_compositionMode p2 = m_compositionMode p
    /\ m_blendEquation p2 = m_blendEquation p
    /\ m_clipRect p2 = m_clipRect p
    /\ m_shaderProgram p2 = m_shaderProgram p
    /\ m_alphaWriting p2 = m_alphaWriting p
    /\ m_transformMatrix p2 = m_transformMatrix p
    /\ m_texture p2 = default_state_texture env.
Proof.
  intros Hsave Hst Hidx.
  destruct (saveState_Done p p1 Hsave) as (_ & Hi & _ & Hslot & _).
  rewrite <- Hst, <- Hidx in Hslot.
  destruct (restoreSavedState_slot env q _ Hslot)
    as (p2 & H2 & Hi2 & _ & _ & Hres & Hc & Ho & Hm & Hb & Hr & Hs & Ha & Ht & Hx).
  exists p2. split; [exact H2|]. split_and!; try assumption. lia.
Qed.

End Discipline.

Section Reset.

Context {F : Type} {FO : FloatOps F}.
Variable env : Env F.
Variable defaults : Defaults F.
Implicit Types (p q : Painter F).

(** What [resetState] leaves in the members, whatever they held. *)
Lemma resetState_members p :
  let q := resetState env defaults p in
  m_color q = Color_white
  /\ m_opacity q = f_one
  /\ m_compositionMode q = CompositionMode_Normal
  /\ m_blendEquation q = BlendEquation_Add
  /\ m_clipRect q = default_clipRect defaults
  /\ m_shaderProgram q = None
  /\ m_texture q = None
  /\ m_alphaWriting q = false
  /\ m_transformMatrix q = default_transformMatrix defaults
  /\ m_resolution q = m_resolution p
  /\ m_oldStateIndex q = m_oldStateIndex p
  /\ m_olderStates q = m_olderStates p
  /\ m_transformMatrixStack q = m_transformMatrixStack p.
Proof.
  cbv zeta.
  unfold resetState, resetColor, resetOpacity, resetCompositionMode,
    resetBlendEquation, resetClipRect, resetShaderProgram, resetTexture,
    resetAlphaWriting, resetTransformMatrix.
  split_and!; through_setters; reflexivity.
Qed.

(** A painter that holds the defaults is left alone by [resetState]. *)
Lemma resetState_fixed q :
  m_color q = Color_white ->
  m_opacity q = f_one ->
  m_compositionMode q = CompositionMode_Normal ->
  m_blendEquation q = BlendEquation_Add ->
  m_clipRect q = default_clipRect defaults ->
  m_shaderProgram q = None ->
  m_texture q = None ->
  m_alphaWriting q = false ->
  m_transformMatrix q = default_transformMatrix defaults ->
  resetState env defaults q = q.
Proof.
  destruct q as [res tm pm xm col op cm be cr tex sh aw gid idx states stack log].
  cbn. intros -> -> -> -> -> -> -> -> ->.
  unfold resetState, resetColor, resetOpacity, resetCompositionMode,
    resetBlendEquation, resetClipRect, resetShaderProgram, resetTexture,
    resetAlphaWriting, resetTransformMatrix.
  unfold setColor, setOpacity, setShaderProgram, setTransformMatrix.
  cbn. unfold setCompositionMode. cbn. unfold setBlendEquation. cbn.
  unfold setClipRect. cbn. rewrite Rect_eqb_refl.
  unfold setTexture. cbn. unfold setAlphaWriting. cbn. reflexivity.
Qed.

(** X6. After [resetState] the members hold the defaults whatever they held
    before, and a second [resetState] changes nothing: it logs no OpenGL
    call. *)
Theorem resetState_defaults p :
  m_color (resetState env defaults p) = Color_white
  /\ m_opacity (resetState env defaults p) = f_one
  /\ m_compositionMode (resetState env defaults p) = CompositionMode_Normal
  /\ m_blendEquation (resetState env defaults p) = BlendEquation_Add
  /\ m_clipRect (resetState env defaults p) = default_clipRect defaults
  /\ m_shaderProgram (resetState env defaults p) = None
  /\ m_texture (resetState env defaults p) = None
  /\ m_alphaWriting (resetState env defaults p) = false
  /\ m_transformMatrix (resetState env defaults p) = default_transformMatrix defaults
  /\ resetState env defaults (resetState env defaults p) = resetState env defaults p.
Proof.
  destruct (resetState_members p)
    as (Hc & Ho & Hm & Hb & Hr & Hs & Hx & Ha & Ht & _).
  split_and!; try assumption. by apply resetState_fixed.
Qed.

(** X7. [saveAndResetState] followed by [restoreSavedState] succeeds when
    fewer than ten states are saved, and brings the painter back from the
    defaults to the resolution, colour, opacity, composition mode, blend
    equation, clip rectangle, shader program, alpha writing, transform
    matrix and index it had; the texture becomes the one of a
    default-initialised state. *)
Theorem saveAndResetState_restoreSavedState p :
  snapshotsOk p ->
  m_oldStateIndex p < 10 ->
  exists p1 p2,
    saveAndResetState env defaults p = Done p1
    /\ m_compositionMode p1 = CompositionMode_Normal
    /\ restoreSavedState env p1 = Done p2
    /\ m_oldStateIndex p2 = m_oldStateIndex p
    /\ m_resolution p2 = m_resolution p
    /\ m_color p2 = m_color p
    /\ m_opacity p2 = m_opacity p
    /\ m_compositionMode p2 = m_compositionMode p
    /\ m_blendEquation p2 = m_blendEquation p
    /\ m_clipRect p2 = m_clipRect p
    /\ m_shaderProgram p2 = m_shaderProgram p
    /\ m_alphaWriting p2 = m_alphaWriting p
    /\ m_transformMatrix p2 = m_transformMatrix p
    /\ m_texture p2 = default_state_texture env.
Proof.
  intros Hok Hlt. destruct (saveState_ok env p Hok Hlt) as [p0 H0].
  destruct (saveState_Done env p p0 H0) as (_ & Hi & _ & Hslot & _).
  destruct (resetState_members p0)
    as (_ & _ & Hm & _ & _ & _ & _ & _ & _ & _ & Hidx & Hst & _).
  rewrite <- Hst, <- Hidx in Hslot.
  destruct (restoreSavedState_slot env _ _ Hslot)
    as (p2 & H2 & Hi2 & _ & _ & Hres & Hc & Ho & Hm2 & Hb & Hr & Hs & Ha & Ht & Hx).
  exists (resetState env defaults p0), p2.
  unfold saveAndResetState. rewrite H0. cbn [mbind Outcome_bind].
  split; [reflexivity|]. split; [exact Hm|]. split; [exact H2|].
  split_and!; try assumption. lia.
Qed.

End Reset.

Section Transformations.

Context {F : Type} {FO : FloatOps F}.
Variable mops : MatrixOps F.
Implicit Types (p q : Painter F) (ts : list (Transformation F)).

(** A transformation writes the transform matrix and nothing else. *)
Lemma transformBy_nf (t : Transformation F) p :
  transformBy mops t p
  = with_transformMatrix (m_transformMatrix (transformBy mops t p)) p.
Proof.
  destruct t; unfold transformBy, rotateAt, scale, translate, rotate,
    setTransformMatrix; reflexivity.
Qed.

Lemma transformAll_nf ts : forall p,
  transformAll mops ts p
  = with_transformMatrix (m_transformMatrix (transformAll mops ts p)) p.
Proof.
  induction ts as [|t ts IH]; intros p; [by destruct p|].
  change (transformAll mops (t :: ts) p)
    with (transformAll mops ts (transformBy mops t p)).
  etransitivity; [apply IH|].
  rewrite (transformBy_nf t p). reflexivity.
Qed.

(** X8. A push, any sequence of [scale], [translate] and [rotate] calls and
    a pop give back the painter the push started from, in every member,
    when the stack holds fewer than 99 matrices. No OpenGL call is made. *)
Theorem transform_bracket p ts :
  (length (m_transformMatrixStack p) < 99)%nat ->
  (pushTransformMatrix p ≫= fun p1 => popTransformMatrix (transformAll mops ts p1))
  = Done p.
Proof.
  intros Hlen. rewrite pushTransformMatrix_ok by exact Hlen.
  cbn [mbind Outcome_bind]. rewrite transformAll_nf.
  rewrite (popTransformMatrix_snoc _ (m_transformMatrixStack p) (m_transformMatrix p))
    by reflexivity.
  by destruct p.
Qed.

(** X9. [popTransformMatrix] fails its assertion exactly on the empty
    stack; on any other stack it succeeds and takes the last matrix pushed
    as the transform. It never reads outside the vector. *)
Theorem popTransformMatrix_outcome p :
  match popTransformMatrix p with
  | Done p' =>
      exists st m,
        m_transformMatrixStack p = st ++ [m]
        /\ m_transformMatrixStack p' = st
        /\ m_transformMatrix p' = m
  | AssertionFailed => m_transformMatrixStack p = []
  | OutOfBounds => False
  end.
Proof.
  destruct (m_transformMatrixStack p) as [|x l] eqn:E.
  - unfold popTransformMatrix. by rewrite E.
  - destruct (@exists_last _ (x :: l)) as (st & m & Hst); [discriminate|].
    rewrite Hst in E. rewrite (popTransformMatrix_snoc p st m E).
    exists st, m. by rewrite Hst.
Qed.

End Transformations.

Section Textures.

Context {F : Type} {FO : FloatOps F}.
Variable env : Env F.
Implicit Types (p q : Painter F).

(** X10. [setTexture] keeps the remembered OpenGL name in step with the
    bound texture: if the name was that of the bound texture (or 0 with
    none bound) before the call, it is so after it; and so it is after
    [executeState]. *)
Theorem setTexture_keeps_glTextureId (t : TexturePtr) (st : PainterState F) p :
  glTextureIdOk env p ->
  glTextureIdOk env (setTexture env t p)
  /\ glTextureIdOk env (executeState env st p).
Proof.
  assert (Hset : forall t q, glTextureIdOk env q -> glTextureIdOk env (setTexture env t q)).
  { intros t' q Hq. unfold glTextureIdOk, setTexture in *.
    destruct (ptr_eqb (m_texture q) t'); [exact Hq|].
    unfold updateGlTexture, setTextureMatrix. destruct t' as [a|];
      cbn beta iota zeta; painter_fields;
      repeat match goal with |- context [?x =? ?y] =>
        destruct (Z.eqb_spec x y); cbn [negb]; painter_fields end;
      first [reflexivity | assumption]. }
  intros Hp. split; [by apply Hset|].
  unfold executeState. apply Hset.
  unfold glTextureIdOk in *.
  assert (forall q, m_texture q = m_texture p -> m_glTextureId q = m_glTextureId p ->
            m_glTextureId q = match m_texture q with
                              | Some a => Texture_getId env a
                              | None => 0
                              end) as Hframe.
  { intros q -> ->. exact Hp. }
  apply Hframe; through_setters; reflexivity.
Qed.

(** X11. Unbinding the texture makes no OpenGL call, and binding one makes
    at most the one [glBindTexture] call: none when the same texture is
    bound already, when its OpenGL name is the remembered one, or when its
    name is 0. *)
Theorem setTexture_log p :
  gl (setTexture env None p) = gl p
  /\ forall a,
       gl (setTexture env (Some a) p)
       = gl p ++ (if ptr_eqb (m_texture p) (Some a)
                     || (m_glTextureId p =? Texture_getId env a)
                     || (Texture_getId env a =? 0)
                  then []
                  else [glBindTexture GL_TEXTURE_2D (Texture_getId env a)]).
Proof.
  split.
  - unfold setTexture. destruct (ptr_eqb (m_texture p) None); [reflexivity|].
    cbn beta iota zeta. painter_fields.
    destruct (m_glTextureId p =? 0); cbn [negb]; [reflexivity|].
    unfold updateGlTexture. painter_fields. reflexivity.
  - intros a. unfold setTexture.
    destruct (ptr_eqb (m_texture p) (Some a)); cbn [orb]; [by rewrite app_nil_r|].
    unfold setTextureMatrix. cbn beta iota zeta. painter_fields.
    destruct (m_glTextureId p =? Texture_getId env a); cbn [negb orb];
      painter_fields; [by rewrite app_nil_r|].
    unfold updateGlTexture, call. painter_fields.
    destruct (Texture_getId env a =? 0); cbn [negb]; painter_fields;
      [by rewrite app_nil_r | reflexivity].
Qed.

Lemma app_neq_self {A} (l cs : list A) : cs <> [] -> l ++ cs <> l.
Proof.
  intros Hcs Heq. apply Hcs. apply (app_inv_head l). by rewrite app_nil_r.
Qed.

(** X12. For the composition mode, the clip rectangle and alpha writing the
    memo is exact: the setter logs OpenGL calls if and only if its
    argument differs from the stored value. *)
Theorem setters_log_iff_changed p :
  (forall v, gl (setCompositionMode env v p) = gl p <-> v = m_compositionMode p)
  /\ (forall v, gl (setClipRect v p) = gl p <-> v = m_clipRect p)
  /\ (forall v, gl (setAlphaWriting v p) = gl p <-> v = m_alphaWriting p).
Proof.
  split_and!; intros v; split.
  - unfold setCompositionMode. destruct (CompositionMode_eqb _ _) eqn:E.
    + intros _. symmetry. by apply CompositionMode_eqb_eq.
    + intros H. exfalso. revert H.
      destruct (updateGlCompositionMode_log env (with_compositionMode v p)) as (c & ->).
      cbn [gl with_gl with_compositionMode]. by apply app_neq_self.
  - intros ->. by rewrite setCompositionMode_same.
  - unfold setClipRect. destruct (Rect_eqb _ _) eqn:E.
    + intros _. symmetry. by apply Rect_eqb_eq.
    + intros H. exfalso. revert H.
      destruct (updateGlClipRect_log (with_clipRect v p)) as (c1 & c2 & ->).
      cbn [gl with_gl with_clipRect]. by apply app_neq_self.
  - intros ->. by rewrite setClipRect_same.
  - unfold setAlphaWriting. destruct (Bool.eqb _ _) eqn:E.
    + intros _. symmetry. by apply Bool.eqb_prop.
    + intros H. exfalso. revert H.
      destruct (updateGlAlphaWriting_log (with_alphaWriting v p)) as (c & ->).
      cbn [gl with_gl with_alphaWriting]. by apply app_neq_self.
  - intros ->. by rewrite setAlphaWriting_same.
Qed.

End Textures.

(** Witnesses, on the painter of an 800x600 window. *)

Lemma snapshots_discipline_witness :
  match saveState Samples.env Samples.painter with
  | Done p' => m_oldStateIndex Samples.painter < 10 /\ snapshotsOk p'
               /\ m_oldStateIndex p' = m_oldStateIndex Samples.painter + 1
  | AssertionFailed => m_oldStateIndex Samples.painter = 10
  | OutOfBounds => False
  end
  /\ match restoreSavedState Samples.env Samples.painter with
     | Done p' => 0 < m_oldStateIndex Samples.painter /\ snapshotsOk p'
                  /\ m_oldStateIndex p' = m_oldStateIndex Samples.painter - 1
     | AssertionFailed => False
     | OutOfBounds => m_oldStateIndex Samples.painter = 0
     end.
Proof.
  refine (snapshots_discipline Samples.env Samples.painter _).
  split; [reflexivity | split; apply Z.leb_le; reflexivity].
Defined.

Lemma saveState_capacity_witness :
  exists p',
    orepeat (Z.to_nat (10 - m_oldStateIndex Samples.painter))
            (saveState Samples.env) Samples.painter = Done p'
    /\ m_oldStateIndex p' = 10
    /\ snapshotsOk p'
    /\ saveState Samples.env p' = AssertionFailed.
Proof.
  refine (saveState_capacity Samples.env Samples.painter _).
  split; [reflexivity | split; apply Z.leb_le; reflexivity].
Defined.

Lemma saveState_work_restoreSavedState_witness :
  exists p2,
    restoreSavedState Samples.env Samples.workedPainter = Done p2
    /\ m_oldStateIndex p2 = m_oldStateIndex Samples.texturedPainter
    /\ m_resolution p2 = m_resolution Samples.texturedPainter
    /\ m_color p2 = m_color Samples.texturedPainter
    /\ m_opacity p2 = m_opacity Samples.texturedPainter
    /\ m_compositionMode p2 = m_compositionMode Samples.texturedPainter
    /\ m_blendEquation p2 = m_blendEquation Samples.texturedPainter
    /\ m_clipRect p2 = m_clipRect Samples.texturedPainter
    /\ m_shaderProgram p2 = m_shaderProgram Samples.texturedPainter
    /\ m_alphaWriting p2 = m_alphaWriting Samples.texturedPainter
    /\ m_transformMatrix p2 = m_transformMatrix Samples.texturedPainter
    /\ m_texture p2 = default_state_texture Samples.env.
Proof.
  refine (saveState_work_restoreSavedState Samples.env Samples.texturedPainter
            Samples.savedPainter Samples.workedPainter _ _ _); reflexivity.
Defined.

Lemma saveAndResetState_restoreSavedState_witness :
  exists p1 p2,
    saveAndResetState Samples.env Samples.defaults Samples.workedPainter = Done p1
    /\ m_compositionMode p1 = CompositionMode_Normal
    /\ restoreSavedState Samples.env p1 = Done p2
    /\ m_oldStateIndex p2 = m_oldStateIndex Samples.workedPainter
    /\ m_resolution p2 = m_resolution Samples.workedPainter
    /\ m_color p2 = m_color Samples.workedPainter
    /\ m_opacity p2 = m_opacity Samples.workedPainter
    /\ m_compositionMode p2 = m_compositionMode Samples.workedPainter
    /\ m_blendEquation p2 = m_blendEquation Samples.workedPainter
    /\ m_clipRect p2 = m_clipRect Samples.workedPainter
    /\ m_shaderProgram p2 = m_shaderProgram Samples.workedPainter
    /\ m_alphaWriting p2 = m_alphaWriting Samples.workedPainter
    /\ m_transformMatrix p2 = m_transformMatrix Samples.workedPainter
    /\ m_texture p2 = default_state_texture Samples.env.
Proof.
  refine (saveAndResetState_restoreSavedState Samples.env Samples.defaults
            Samples.workedPainter _ _).
  - split; [reflexivity | split; apply Z.leb_le; reflexivity].
  - reflexivity.
Defined.

Lemma transform_bracket_witness :
  (pushTransformMatrix Samples.painter ≫= fun p1 =>
     popTransformMatrix
       (transformAll Samples.mops
          [Scale 2%Q 2%Q; Translate 3%Q 4%Q; RotateAt 1%Q 1%Q 0%Q] p1))
  = Done Samples.painter.
Proof.
  refine (transform_bracket Samples.mops Samples.painter
            [Scale 2%Q 2%Q; Translate 3%Q 4%Q; RotateAt 1%Q 1%Q 0%Q] _).
  cbn. lia.
Defined.

Lemma setTexture_keeps_glTextureId_witness :
  glTextureIdOk Samples.env (setTexture Samples.env (Some 9%N) Samples.texturedPainter)
  /\ glTextureIdOk Samples.env
       (executeState Samples.env Samples.blankState Samples.texturedPainter).
Proof.
  refine (setTexture_keeps_glTextureId Samples.env (Some 9%N) Samples.blankState
            Samples.texturedPainter _).
  reflexivity.
Defined.

End PainterOGLExtra.

(** * Further properties of the map view painter *)

Module MapViewPainterExtra.
Import MapViewPainter MapViewPainterSpec.

Section Visibility.

Context {F : Type} {FO : FloatOps F}.
Implicit Types (mapView : MapView F) (tile : Tile) (viewPort : AwareRange).

(** X13. A tile whose check position lies strictly inside the viewport on
    all four sides is rendered, whatever its flags and whatever the
    options of the view. *)
Theorem canRenderTile_inside mapView tile viewPort lightView :
  Position_x (getCameraPosition mapView) - Position_x (checkPos mapView tile)
    < left viewPort ->
  Position_x (checkPos mapView tile) - Position_x (getCameraPosition mapView)
    < right viewPort ->
  Position_y (getCameraPosition mapView) - Position_y (checkPos mapView tile)
    < top viewPort ->
  Position_y (checkPos mapView tile) - Position_y (getCameraPosition mapView)
    < bottom viewPort ->
  canRenderTile mapView tile viewPort lightView = true.
Proof.
  intros Hl Hr Ht Hb.
  destruct (m_drawViewportEdge mapView || lightForcesRender lightView tile) eqn:E.
  - by apply canRenderTile_forced.
  - apply orb_false_elim in E as [He Hlight].
    rewrite (canRenderTile_tests mapView tile viewPort lightView He Hlight). cbv zeta.
    replace (_ >=? left viewPort) with false by (symmetry; lia).
    replace (_ =? right viewPort) with false by (symmetry; lia).
    replace (_ >=? top viewPort) with false by (symmetry; lia).
    replace (_ =? bottom viewPort) with false by (symmetry; lia).
    replace (_ >? right viewPort) with false by (symmetry; lia).
    replace (_ >? bottom viewPort) with false by (symmetry; lia).
    reflexivity.
Qed.

(** X14. Strictly beyond the right boundary, on a row inside the viewport, a
    tile is rendered exactly when it has both wide things and
    displacement (neither the viewport-edge option nor the light exception
    being in force). *)
Theorem canRenderTile_beyond_right mapView tile viewPort lightView :
  m_drawViewportEdge mapView = false ->
  lightForcesRender lightView tile = false ->
  Position_x (checkPos mapView tile) - Position_x (getCameraPosition mapView)
    > right viewPort ->
  Position_x (getCameraPosition mapView) - Position_x (checkPos mapView tile)
    < left viewPort ->
  Position_y (getCameraPosition mapView) - Position_y (checkPos mapView tile)
    < top viewPort ->
  Position_y (checkPos mapView tile) - Position_y (getCameraPosition mapView)
    < bottom viewPort ->
  canRenderTile mapView tile viewPort lightView
    = hasWideThings tile && hasDisplacement tile.
Proof.
  intros He Hlight Hr Hl Ht Hb.
  rewrite (canRenderTile_tests mapView tile viewPort lightView He Hlight). cbv zeta.
  replace (_ >=? left viewPort) with false by (symmetry; lia).
  replace (_ =? right viewPort) with false by (symmetry; lia).
  replace (_ >=? top viewPort) with false by (symmetry; lia).
  replace (_ =? bottom viewPort) with false by (symmetry; lia).
  replace (_ >? right viewPort) with true by (symmetry; lia).
  replace (_ >? bottom viewPort) with false by (symmetry; lia).
  by destruct (hasWideThings tile), (hasDisplacement tile).
Qed.

(** X15. At the exact bottom boundary, on a column strictly inside the
    viewport, a tile is rendered exactly when it has tall things or
    displacement; strictly beyond the bottom boundary it is never
    rendered, whatever its flags (neither the viewport-edge option nor the
    light exception being in force). *)
Theorem canRenderTile_bottom mapView tile viewPort lightView :
  m_drawViewportEdge mapView = false ->
  lightForcesRender lightView tile = false ->
  Position_x (getCameraPosition mapView) - Position_x (checkPos mapView tile)
    < left viewPort ->
  Position_x (checkPos mapView tile) - Position_x (getCameraPosition mapView)
    < right viewPort ->
  Position_y (getCameraPosition mapView) - Position_y (checkPos mapView tile)
    < top viewPort ->
  Position_y (checkPos mapView tile) - Position_y (getCameraPosition mapView)
    >= bottom viewPort ->
  canRenderTile mapView tile viewPort lightView
    = (Position_y (checkPos mapView tile) - Position_y (getCameraPosition mapView)
         =? bottom viewPort)
      && (hasTallThings tile || hasDisplacement tile).
Proof.
  intros He Hlight Hl Hr Ht Hb.
  rewrite (canRenderTile_tests mapView tile viewPort lightView He Hlight). cbv zeta.
  replace (_ >=? left viewPort) with false by (symmetry; lia).
  replace (_ =? right viewPort) with false by (symmetry; lia).
  replace (_ >=? top viewPort) with false by (symmetry; lia).
  replace (_ >? right viewPort) with false by (symmetry; lia).
  destruct (Z.eqb_spec (Position_y (checkPos mapView tile)
                        - Position_y (getCameraPosition mapView)) (bottom viewPort))
    as [Heq | Hne].
  - replace (_ >? bottom viewPort) with false by (symmetry; lia).
    by destruct (hasTallThings tile), (hasDisplacement tile).
  - replace (_ >? bottom viewPort) with true by (symmetry; lia). reflexivity.
Qed.

(** X16. Flags only ever help: a tile that is rendered stays rendered when
    wide things, tall things or displacement are added to it, everything
    else being equal. *)
Theorem canRenderTile_flags_monotone mapView (tile tile' : Tile) viewPort lightView :
  Tile_getPosition tile' = Tile_getPosition tile ->
  hasLight tile' = hasLight tile ->
  (hasWideThings tile = true -> hasWideThings tile' = true) ->
  (hasTallThings tile = true -> hasTallThings tile' = true) ->
  (hasDisplacement tile = true -> hasDisplacement tile' = true) ->
  canRenderTile mapView tile viewPort lightView = true ->
  canRenderTile mapView tile' viewPort lightView = true.
Proof.
  intros Hpos Hlight Hw Ht Hd.
  assert (Hchk : checkPos mapView tile' = checkPos mapView tile)
    by (unfold checkPos; by rewrite Hpos).
  assert (Hforce : lightForcesRender lightView tile' = lightForcesRender lightView tile)
    by (unfold lightForcesRender; by rewrite Hlight).
  destruct (m_drawViewportEdge mapView || lightForcesRender lightView tile) eqn:E.
  - intros _. apply canRenderTile_forced. by rewrite Hforce.
  - apply orb_false_elim in E as [He Hl].
    rewrite (canRenderTile_tests mapView tile viewPort lightView He Hl).
    rewrite (canRenderTile_tests mapView tile' viewPort lightView He)
      by (by rewrite Hforce).
    cbv zeta. rewrite Hchk.
    destruct (hasWideThings tile), (hasTallThings tile), (hasDisplacement tile);
      try rewrite (Hw eq_refl); try rewrite (Ht eq_refl); try rewrite (Hd eq_refl);
      destruct (hasWideThings tile'), (hasTallThings tile'), (hasDisplacement tile');
      repeat match goal with |- context [?a >=? ?b] => destruct (a >=? b) end;
      repeat match goal with |- context [?a =? ?b] => destruct (a =? b) end;
      repeat match goal with |- context [?a >? ?b] => destruct (a >? b) end;
      cbn; congruence.
Qed.

End Visibility.

Section Frame.

Context {F : Type} {FO : FloatOps F}.
Variable world : World F.
Implicit Types (mapView : MapView F) (evs : list (DrawEvent F)).

Lemma flat_map_silent {A} (f : DrawEvent F -> list A) (P : DrawEvent F -> Prop) evs :
  (forall e, P e -> f e = []) -> Forall P evs -> flat_map f evs = [].
Proof.
  intros Hf H. induction H as [|e evs He _ IH]; [reflexivity|].
  cbn [flat_map]. by rewrite (Hf e He), IH.
Qed.

Lemma plain_aside (e : DrawEvent F) : plain e -> aside e.
Proof. by intros [H _]. Qed.

Lemma tilesDrawn_aside layer evs : Forall (@aside F) evs -> tilesDrawn layer evs = [].
Proof.
  apply flat_map_silent. intros e [Ht _]. by destruct layer, e.
Qed.

Lemma floorMarks_aside evs : Forall (@aside F) evs -> floorMarks evs = [].
Proof.
  apply flat_map_silent. intros e [_ Hm]. by destruct e.
Qed.

Lemma seamShade_aside pos2D ps : Forall (@aside F) (seamShade world pos2D ps).
Proof.
  induction ps as [|pos ps IH]; cbn [seamShade]; [constructor|].
  destruct (g_map_getTile world pos) as [t|]; [|exact IH].
  destruct (Tile_hasGround t && negb (Tile_isTopGround t)); [|exact IH].
  by repeat constructor.
Qed.

Lemma shadeTile_aside mapView cam tile : Forall (@aside F) (shadeTile world mapView cam tile).
Proof.
  unfold shadeTile. destruct (Tile_getGround tile) as [g|]; [|constructor].
  destruct (isTranslucent g); cbn [negb]; [constructor|].
  destruct (isTopGround g); [|by repeat constructor].
  apply Forall_app. split; [apply seamShade_aside | by repeat constructor].
Qed.

Lemma shadeFloorAbove_aside mapView cam lightView z :
  Forall (@aside F) (shadeFloorAbove world mapView cam lightView z).
Proof.
  unfold shadeFloorAbove. destruct lightView; [|constructor].
  destruct (_ >=? _); [|constructor].
  constructor; [by split|]. apply Forall_flat_map, Forall_forall.
  intros t _. apply shadeTile_aside.
Qed.

Lemma shadeFloorAbove_none mapView cam z :
  shadeFloorAbove world mapView cam None z = [].
Proof. reflexivity. Qed.

Lemma drawMissiles_plain mapView cam z : Forall (@plain F) (drawMissiles world mapView cam z).
Proof.
  unfold drawMissiles. apply Forall_map, Forall_forall. intros m _. by repeat split.
Qed.

Lemma drawCrosshair_plain mapView cam : Forall (@plain F) (drawCrosshair world mapView cam).
Proof.
  unfold drawCrosshair. destruct (m_crosshairTexture mapView); [|constructor].
  destruct (Position_isValid _); [|constructor].
  apply Forall_app. split; [|by repeat constructor].
  destruct (m_crosshairEffect mapView) as [e|]; [|constructor].
  destruct (Effect_getId e >? 0); by repeat constructor.
Qed.

Lemma drawCreatureInformation_plain mapView :
  Forall (@plain F) (drawCreatureInformation world mapView).
Proof.
  unfold drawCreatureInformation. destruct (_ && _); [constructor|].
  destruct (drawUp _ _); [|constructor].
  apply Forall_map, Forall_forall. intros c _. by repeat split.
Qed.

Lemma drawText_plain mapView : Forall (@plain F) (drawText world mapView).
Proof.
  unfold drawText. destruct (negb _); [constructor|]. apply Forall_app. split.
  - destruct (g_map_getStaticTexts world) as [|t ts] eqn:E; [constructor|].
    destruct (drawUp _ _); [|constructor].
    apply Forall_flat_map, Forall_forall. intros a _. cbv zeta.
    destruct (_ && _); by repeat constructor.
  - destruct (g_map_getAnimatedTexts world) as [|t ts] eqn:E; [constructor|].
    destruct (drawUp _ _); [|constructor].
    apply Forall_flat_map, Forall_forall. intros a _. cbv zeta.
    destruct (negb _); by repeat constructor.
Qed.

Lemma overlays_aside mapView : Forall (@aside F) (overlays world mapView).
Proof.
  unfold overlays. apply Forall_app. split.
  - destruct (_ && _); by repeat constructor.
  - apply Forall_app. split; eapply Forall_impl;
      eauto using plain_aside, drawCreatureInformation_plain, drawText_plain.
Qed.

(** The layers one turn of the loop draws: the accepted tiles of the
    floor, once for each layer. *)
Lemma tilesDrawn_drawGrounds layer mapView cam lightView z :
  tilesDrawn layer (drawGrounds world mapView cam lightView z)
  = match layer with
    | GroundLayer => renderedTiles mapView lightView z
    | _ => []
    end.
Proof.
  unfold drawGrounds, renderedTiles.
  induction (m_cachedVisibleTiles mapView z) as [|t ts IH].
  - by destruct layer.
  - cbn [flat_map List.filter]. unfold tilesDrawn in *. rewrite flat_map_app, IH.
    destruct (canRenderTile _ _ _ _); by destruct layer.
Qed.

Lemma tilesDrawn_drawItems layer mapView cam lightView z :
  tilesDrawn layer (drawItems world mapView cam lightView z)
  = match layer with
    | GroundLayer => []
    | _ => renderedTiles mapView lightView z
    end.
Proof.
  unfold drawItems, renderedTiles.
  induction (m_cachedVisibleTiles mapView z) as [|t ts IH].
  - by destruct layer.
  - cbn [flat_map List.filter]. unfold tilesDrawn in *. rewrite flat_map_app, IH.
    destruct (canRenderTile _ _ _ _); by destruct layer.
Qed.

Lemma tilesDrawn_app layer evs1 evs2 :
  tilesDrawn layer (evs1 ++ evs2) = tilesDrawn layer evs1 ++ tilesDrawn layer evs2.
Proof. apply flat_map_app. Qed.

Lemma floorMarks_app evs1 evs2 :
  floorMarks (evs1 ++ evs2) = floorMarks evs1 ++ floorMarks evs2.
Proof. apply flat_map_app. Qed.

Lemma tilesDrawn_drawFloor layer mapView cam lightView z :
  tilesDrawn layer (drawFloor world mapView cam lightView z)
  = renderedTiles mapView lightView z.
Proof.
  unfold drawFloor. rewrite !tilesDrawn_app.
  rewrite (tilesDrawn_aside layer _ (shadeFloorAbove_aside mapView cam lightView z)).
  rewrite tilesDrawn_drawGrounds, tilesDrawn_drawItems.
  rewrite (tilesDrawn_aside layer (drawMissiles _ _ _ _)).
  2:{ eapply Forall_impl; [apply drawMissiles_plain | apply plain_aside]. }
  assert (Hone : forall e : DrawEvent F, isTileDraw e = false -> tilesDrawn layer [e] = []).
  { intros e He. by destruct layer, e. }
  rewrite !Hone by reflexivity.
  assert (tilesDrawn (F:=F) layer
            match lightView with
            | Some _ => [LightView_setFloor z]
            | None => []
            end = []) as -> by (by destruct lightView, layer).
  destruct layer; cbn [app]; by rewrite ?app_nil_r.
Qed.

Lemma drawTiles_no_marks mapView cam lightView z :
  floorMarks (drawGrounds world mapView cam lightView z) = []
  /\ floorMarks (drawItems world mapView cam lightView z) = [].
Proof.
  unfold drawGrounds, drawItems. split;
    (induction (m_cachedVisibleTiles mapView z) as [|t ts IH]; [reflexivity|];
     cbn [flat_map]; rewrite floorMarks_app, IH;
     by destruct (canRenderTile _ _ _ _)).
Qed.

Lemma floorMarks_drawFloor mapView cam lightView z :
  floorMarks (drawFloor world mapView cam lightView z) = [FloorStart z; FloorEnd z].
Proof.
  unfold drawFloor. rewrite !floorMarks_app.
  rewrite (floorMarks_aside _ (shadeFloorAbove_aside mapView cam lightView z)).
  destruct (drawTiles_no_marks mapView cam lightView z) as [-> ->].
  rewrite (floorMarks_aside (drawMissiles _ _ _ _)).
  2:{ eapply Forall_impl; [apply drawMissiles_plain | apply plain_aside]. }
  by destruct lightView.
Qed.

Lemma tilesDrawn_drawFloors layer mapView cam lightView zs :
  tilesDrawn layer (flat_map (drawFloor world mapView cam lightView) zs)
  = flat_map (renderedTiles mapView lightView) zs.
Proof.
  induction zs as [|z zs IH]; [reflexivity|].
  cbn [flat_map]. by rewrite tilesDrawn_app, tilesDrawn_drawFloor, IH.
Qed.

Lemma floorMarks_drawFloors mapView cam lightView zs :
  floorMarks (flat_map (drawFloor world mapView cam lightView) zs)
  = flat_map (fun z => [FloorStart z; FloorEnd z]) zs.
Proof.
  induction zs as [|z zs IH]; [reflexivity|].
  cbn [flat_map]. by rewrite floorMarks_app, floorMarks_drawFloor, IH.
Qed.

Lemma draw_closed' mapView r :
  drawUp world DRAWTYPE_MAP = true ->
  -128 < m_floorMin (prepareView world mapView r) ->
  m_floorMin (prepareView world mapView r) <= m_floorMax (prepareView world mapView r) ->
  m_floorMax (prepareView world mapView r) <= 127 ->
  draw world mapView r =
    Some (prepareView world mapView r,
          (flat_map (drawFloor world (prepareView world mapView r)
                       (getCameraPosition (prepareView world mapView r))
                       (if m_drawLights (prepareView world mapView r)
                        then m_lightView (prepareView world mapView r) else None))
                    (floorsDescending (m_floorMax (prepareView world mapView r))
                                      (m_floorMin (prepareView world mapView r)))
           ++ drawCrosshair world (prepareView world mapView r)
                (getCameraPosition (prepareView world mapView r)))
          ++ overlays world (prepareView world mapView r)).
Proof. intros Hup Hmin Hle Hmax. by apply draw_closed. Qed.

(** X17. In a frame, each of the three layers (ground, bottom, top) is drawn
    for exactly the cached tiles that [canRenderTile] accepts, floor by
    floor from floorMax down to floorMin and within a floor in cache
    order: no accepted tile is left out, none is drawn twice, and a tile
    that [canRenderTile] rejects is never drawn. *)
Theorem draw_layers mapView r :
  drawUp world DRAWTYPE_MAP = true ->
  -128 < m_floorMin (prepareView world mapView r) ->
  m_floorMin (prepareView world mapView r) <= m_floorMax (prepareView world mapView r) ->
  m_floorMax (prepareView world mapView r) <= 127 ->
  exists evs,
    draw world mapView r = Some (prepareView world mapView r, evs)
    /\ forall layer,
         tilesDrawn layer evs
         = flat_map (renderedTiles (prepareView world mapView r)
                       (if m_drawLights (prepareView world mapView r)
                        then m_lightView (prepareView world mapView r) else None))
                    (floorsDescending (m_floorMax (prepareView world mapView r))
                                      (m_floorMin (prepareView world mapView r))).
Proof.
  intros Hup Hmin Hle Hmax. eexists. split; [by apply draw_closed'|].
  intros layer. rewrite !tilesDrawn_app, tilesDrawn_drawFloors.
  rewrite (tilesDrawn_aside layer (drawCrosshair _ _ _)).
  2:{ eapply Forall_impl; [apply drawCrosshair_plain | apply plain_aside]. }
  rewrite (tilesDrawn_aside layer _ (overlays_aside _)).
  by rewrite !app_nil_r.
Qed.

(** X18. In a frame, the drawing of a floor is ended before that of the next
    floor is started: the start and end notifications alternate, floor by
    floor from floorMax down to floorMin. *)
Theorem draw_floor_marks mapView r :
  drawUp world DRAWTYPE_MAP = true ->
  -128 < m_floorMin (prepareView world mapView r) ->
  m_floorMin (prepareView world mapView r) <= m_floorMax (prepareView world mapView r) ->
  m_floorMax (prepareView world mapView r) <= 127 ->
  exists evs,
    draw world mapView r = Some (prepareView world mapView r, evs)
    /\ floorMarks evs
       = flat_map (fun z => [FloorStart z; FloorEnd z])
                  (floorsDescending (m_floorMax (prepareView world mapView r))
                                    (m_floorMin (prepareView world mapView r))).
Proof.
  intros Hup Hmin Hle Hmax. eexists. split; [by apply draw_closed'|].
  rewrite !floorMarks_app, floorMarks_drawFloors.
  rewrite (floorMarks_aside (drawCrosshair _ _ _)).
  2:{ eapply Forall_impl; [apply drawCrosshair_plain | apply plain_aside]. }
  rewrite (floorMarks_aside _ (overlays_aside _)).
  by rewrite !app_nil_r.
Qed.

(** X19. When the draw pool does not ask for the map, [draw] ends whatever
    the floor bounds are, visits no floor and draws no tile: only the light
    pass, the creature information and the texts are left. *)
Theorem draw_without_map_pass mapView r :
  drawUp world DRAWTYPE_MAP = false ->
  draw world mapView r
  = Some (prepareView world mapView r, overlays world (prepareView world mapView r))
  /\ floorsVisited (overlays world (prepareView world mapView r)) = []
  /\ forall layer, tilesDrawn layer (overlays world (prepareView world mapView r)) = [].
Proof.
  intros Hup. split_and!.
  - unfold draw. by rewrite Hup.
  - unfold overlays. rewrite !floorsVisited_app, floorsVisited_drawCreatureInformation,
      floorsVisited_drawText. by destruct (_ && _).
  - intros layer. apply tilesDrawn_aside, overlays_aside.
Qed.

(** X20. With an empty floor range (floorMax below floorMin) the loop body
    never runs: no floor is visited and no tile drawn, but the crosshair
    and the passes after the loop are still made. *)
Theorem draw_empty_floor_range mapView r :
  drawUp world DRAWTYPE_MAP = true ->
  -128 <= m_floorMax (prepareView world mapView r) <= 127 ->
  m_floorMax (prepareView world mapView r) < m_floorMin (prepareView world mapView r) ->
  draw world mapView r
  = Some (prepareView world mapView r,
          drawCrosshair world (prepareView world mapView r)
            (getCameraPosition (prepareView world mapView r))
          ++ overlays world (prepareView world mapView r)).
Proof.
  intros Hup Hrange Hlt. unfold draw. rewrite Hup, to_int8_small by lia.
  cbn [floorLoop].
  replace (_ >=? _) with false by (symmetry; lia). reflexivity.
Qed.

(** Inverting [draw]. *)
Lemma draw_Some mapView r mv' evs :
  draw world mapView r = Some (mv', evs) ->
  mv' = prepareView world mapView r
  /\ exists mapEvents,
       evs = mapEvents ++ overlays world mv'
       /\ (mapEvents = []
           \/ exists floors,
                floorLoop world 256 mv' (getCameraPosition mv')
                  (if m_drawLights mv' then m_lightView mv' else None)
                  (to_int8 (m_floorMax mv')) = Some floors
                /\ mapEvents = floors ++ drawCrosshair world mv' (getCameraPosition mv')).
Proof.
  unfold draw. destruct (drawUp world DRAWTYPE_MAP).
  - destruct (floorLoop _ _ _ _ _ _) as [floors|] eqn:E; [|discriminate].
    cbn. intros [= <- <-]. split; [reflexivity|]. eexists. split; [reflexivity|].
    right. by exists floors.
  - cbn. intros [= <- <-]. split; [reflexivity|]. exists []. split; [reflexivity|].
    by left.
Qed.

Lemma floorLoop_Forall (P : DrawEvent F -> Prop) mapView cam lightView :
  (forall z, Forall P (drawFloor world mapView cam lightView z)) ->
  forall fuel z floors,
    floorLoop world fuel mapView cam lightView z = Some floors -> Forall P floors.
Proof.
  intros HP. induction fuel as [|fuel IH]; intros z floors; cbn [floorLoop].
  - destruct (_ >=? _); [discriminate|]. intros [= <-]. constructor.
  - destruct (_ >=? _); [|intros [= <-]; constructor].
    destruct (floorLoop _ fuel _ _ _ _) as [rest|] eqn:E; [|discriminate].
    cbn. intros [= <-]. apply Forall_app. split; [apply HP | by eapply IH].
Qed.

(** X21. When the view has lights switched off, a frame makes no call to the
    light view or to its painter: no floor is set on it, no shade, no
    light pass. *)
Theorem draw_without_lights mapView r mv' evs :
  m_drawLights (prepareView world mapView r) = false ->
  draw world mapView r = Some (mv', evs) ->
  Forall (fun e => isLightCall e = false) evs.
Proof.
  intros Hoff Hdraw. apply draw_Some in Hdraw as (-> & mapEvents & -> & Hmap).
  assert (Hplain : forall l, Forall (@plain F) l -> Forall (fun e => isLightCall e = false) l).
  { intros l Hl. eapply Forall_impl; [exact Hl|]. by intros e [_ H]. }
  apply Forall_app. split.
  - destruct Hmap as [-> | (floors & Hloop & ->)]; [constructor|].
    apply Forall_app. split; [|apply Hplain, drawCrosshair_plain].
    rewrite Hoff in Hloop. eapply floorLoop_Forall; [|exact Hloop].
    intros z. unfold drawFloor. rewrite shadeFloorAbove_none. cbn [app].
    constructor; [reflexivity|]. apply Forall_app. split.
    + unfold drawGrounds. apply Forall_flat_map, Forall_forall. intros t _.
      destruct (canRenderTile _ _ _ _); by repeat constructor.
    + apply Forall_app. split.
      * unfold drawItems. apply Forall_flat_map, Forall_forall. intros t _.
        destruct (canRenderTile _ _ _ _); by repeat constructor.
      * apply Forall_app. split; [apply Hplain, drawMissiles_plain | by repeat constructor].
  - unfold overlays. rewrite Hoff. cbn [andb app]. apply Forall_app.
    split; apply Hplain; [apply drawCreatureInformation_plain | apply drawText_plain].
Qed.

(** X22. The rectangle cache is a memo on the destination rectangle: after
    [updateRectCache] it holds the rectangle asked for, a second update
    with the same rectangle changes nothing, and so does an update with the
    rectangle already cached. *)
Theorem updateRectCache_memo mapView r :
  rect (m_rectCache (updateRectCache world mapView r)) = r
  /\ updateRectCache world (updateRectCache world mapView r) r
     = updateRectCache world mapView r
  /\ updateRectCache world mapView (rect (m_rectCache mapView)) = mapView.
Proof.
  assert (Hrect : rect (m_rectCache (updateRectCache world mapView r)) = r).
  { unfold updateRectCache. destruct (Rect_eqb _ _) eqn:E; cbn [negb].
    - by apply PainterOGLSpec.Rect_eqb_eq.
    - reflexivity. }
  split; [exact Hrect|]. split.
  - unfold updateRectCache at 1. by rewrite Hrect, PainterOGLSpec.Rect_eqb_refl.
  - unfold updateRectCache. by rewrite PainterOGLSpec.Rect_eqb_refl.
Qed.

(** X23. The search for a ground seam marks one shade at most, however many
    of the neighbours qualify: it marks the shade exactly when some
    neighbour has a tile with a ground that is not a top ground. *)
Theorem seamShade_once (pos2D : Point) (ps : list Position) :
  seamShade world pos2D ps
  = if existsb (castsSeam world) ps then [LightView_setShade pos2D] else [].
Proof.
  induction ps as [|pos ps IH]; [reflexivity|].
  cbn [seamShade existsb]. unfold castsSeam at 1.
  destruct (g_map_getTile world pos) as [t|]; [|exact IH].
  destruct (Tile_hasGround t && negb (Tile_isTopGround t)); [reflexivity | exact IH].
Qed.

(** X24. Texts keep to their floor: an animated text is drawn only on the
    floor of the camera, and a static text on another floor is drawn only
    when it carries a message mode; every text drawn is one of the map's,
    at the pixel [textPoint] gives. *)
Theorem drawText_floors mapView :
  (forall t pt rc,
     In (ThingPainter_drawAnimatedText t pt rc) (drawText world mapView) ->
     In t (g_map_getAnimatedTexts world)
     /\ Position_z (AnimatedText_getPosition t) = Position_z (getCameraPosition mapView)
     /\ pt = textPoint world mapView (AnimatedText_getPosition t) (getCameraPosition mapView))
  /\ (forall t pt rc,
        In (ThingPainter_drawStaticText t pt rc) (drawText world mapView) ->
        In t (g_map_getStaticTexts world)
        /\ (Position_z (StaticText_getPosition t) = Position_z (getCameraPosition mapView)
            \/ getMessageMode t <> MESSAGE_NONE)
        /\ pt = textPoint world mapView (StaticText_getPosition t) (getCameraPosition mapView)).
Proof.
  unfold drawText. destruct (negb (m_drawTexts mapView)); [by split; intros ? ? ? []|].
  split; intros t pt rc Hin; apply in_app_or in Hin as [Hin | Hin].
  - exfalso. destruct (g_map_getStaticTexts world) as [|a l]; [destruct Hin|].
    destruct (drawUp _ _); [|destruct Hin].
    apply in_flat_map in Hin as (x & _ & Hx). cbv zeta in Hx.
    destruct (_ && _); [destruct Hx|]. by destruct Hx as [Hx | []].
  - destruct (g_map_getAnimatedTexts world) as [|a l] eqn:E; [destruct Hin|].
    destruct (drawUp _ _); [|destruct Hin].
    apply in_flat_map in Hin as (x & Hxin & Hx). cbv zeta in Hx.
    destruct (Z.eqb_spec (Position_z (AnimatedText_getPosition x))
                         (Position_z (getCameraPosition mapView))) as [Hz | Hz];
      cbn [negb] in Hx; [|destruct Hx].
    destruct Hx as [[= -> <- _] | []]. by split_and!.
  - destruct (g_map_getStaticTexts world) as [|a l] eqn:E; [destruct Hin|].
    destruct (drawUp _ _); [|destruct Hin].
    apply in_flat_map in Hin as (x & Hxin & Hx). cbv zeta in Hx.
    destruct (Z.eqb_spec (Position_z (StaticText_getPosition x))
                         (Position_z (getCameraPosition mapView))) as [Hz | Hz];
      cbn [negb andb] in Hx.
    + destruct Hx as [[= -> <- _] | []]. split_and!; [done | by left | done].
    + destruct (getMessageMode x) eqn:Hm; cbn in Hx; [destruct Hx|].
      destruct Hx as [[= -> <- _] | []]. split_and!; [done | right; congruence | done].
  - exfalso. destruct (g_map_getAnimatedTexts world) as [|a l]; [destruct Hin|].
    destruct (drawUp _ _); [|destruct Hin].
    apply in_flat_map in Hin as (x & _ & Hx). cbv zeta in Hx.
    destruct (negb _); [destruct Hx|]. by destruct Hx as [Hx | []].
Qed.

End Frame.

(** Witnesses: camera (10,10,7), viewport 5/5/5/5. *)

Lemma canRenderTile_inside_witness :
  canRenderTile (Samples.view (mkPosition 10 10 7) Samples.range5 false 0 7 (fun _ => [])) (Samples.tileAt (mkPosition 12 8 7) false false false)
                Samples.range5 None = true.
Proof.
  refine (canRenderTile_inside (Samples.view (mkPosition 10 10 7) Samples.range5 false 0 7 (fun _ => [])) (Samples.tileAt (mkPosition 12 8 7) false false false)
            Samples.range5 None _ _ _ _); reflexivity.
Defined.

Lemma canRenderTile_beyond_right_witness :
  canRenderTile (Samples.view (mkPosition 10 10 7) Samples.range5 false 0 7 (fun _ => [])) (Samples.tileAt (mkPosition 16 10 7) true false true)
                Samples.range5 None = true.
Proof.
  refine (canRenderTile_beyond_right (Samples.view (mkPosition 10 10 7) Samples.range5 false 0 7 (fun _ => []))
            (Samples.tileAt (mkPosition 16 10 7) true false true)
            Samples.range5 None _ _ _ _ _ _); reflexivity.
Defined.

Lemma canRenderTile_bottom_witness :
  canRenderTile (Samples.view (mkPosition 10 10 7) Samples.range5 false 0 7 (fun _ => [])) (Samples.tileAt (mkPosition 10 15 7) false true false)
                Samples.range5 None = true.
Proof.
  refine (canRenderTile_bottom (Samples.view (mkPosition 10 10 7) Samples.range5 false 0 7 (fun _ => []))
            (Samples.tileAt (mkPosition 10 15 7) false true false)
            Samples.range5 None _ _ _ _ _ _); try reflexivity.
  vm_compute. discriminate.
Defined.

Lemma canRenderTile_flags_monotone_witness :
  canRenderTile (Samples.view (mkPosition 10 10 7) Samples.range5 false 0 7 (fun _ => [])) (Samples.tileAt (mkPosition 15 10 7) true true false)
                Samples.range5 None = true.
Proof.
  refine (canRenderTile_flags_monotone (Samples.view (mkPosition 10 10 7) Samples.range5 false 0 7 (fun _ => []))
            (Samples.tileAt (mkPosition 15 10 7) true false false)
            (Samples.tileAt (mkPosition 15 10 7) true true false)
            Samples.range5 None _ _ _ _ _ _); try reflexivity.
  discriminate.
Defined.

Lemma draw_layers_witness :
  exists evs,
    draw Samples.world Samples.twoFloorView Samples.screen
    = Some (prepareView Samples.world Samples.twoFloorView Samples.screen, evs)
    /\ forall layer,
         tilesDrawn layer evs
         = [Samples.tileAt (mkPosition 10 10 7) false false false;
            Samples.tileAt (mkPosition 11 11 6) false true false].
Proof.
  refine (draw_layers Samples.world Samples.twoFloorView Samples.screen _ _ _ _);
    first [reflexivity | vm_compute; discriminate].
Defined.

Lemma draw_floor_marks_witness :
  exists evs,
    draw Samples.world Samples.twoFloorView Samples.screen
    = Some (prepareView Samples.world Samples.twoFloorView Samples.screen, evs)
    /\ floorMarks evs = [FloorStart 7; FloorEnd 7; FloorStart 6; FloorEnd 6].
Proof.
  refine (draw_floor_marks Samples.world Samples.twoFloorView Samples.screen _ _ _ _);
    first [reflexivity | vm_compute; discriminate].
Defined.

Lemma draw_without_map_pass_witness :
  draw Samples.idleWorld Samples.twoFloorView Samples.screen
  = Some (prepareView Samples.idleWorld Samples.twoFloorView Samples.screen,
          overlays Samples.idleWorld
            (prepareView Samples.idleWorld Samples.twoFloorView Samples.screen))
  /\ floorsVisited
       (overlays Samples.idleWorld
          (prepareView Samples.idleWorld Samples.twoFloorView Samples.screen)) = []
  /\ forall layer,
       tilesDrawn layer
         (overlays Samples.idleWorld
            (prepareView Samples.idleWorld Samples.twoFloorView Samples.screen)) = [].
Proof.
  refine (draw_without_map_pass Samples.idleWorld Samples.twoFloorView Samples.screen _).
  reflexivity.
Defined.

Lemma draw_empty_floor_range_witness :
  draw Samples.world Samples.emptyRangeView Samples.screen
  = Some (prepareView Samples.world Samples.emptyRangeView Samples.screen,
          drawCrosshair Samples.world
            (prepareView Samples.world Samples.emptyRangeView Samples.screen)
            (getCameraPosition
               (prepareView Samples.world Samples.emptyRangeView Samples.screen))
          ++ overlays Samples.world
               (prepareView Samples.world Samples.emptyRangeView Samples.screen)).
Proof.
  refine (draw_empty_floor_range Samples.world Samples.emptyRangeView Samples.screen
            _ _ _).
  - reflexivity.
  - split; vm_compute; discriminate.
  - reflexivity.
Defined.

Lemma draw_without_lights_witness :
  Forall (fun e : DrawEvent Q => isLightCall e = false)
    [onFloorDrawingStart 7; onFloorDrawingEnd 7].
Proof.
  refine (draw_without_lights Samples.world
            (Samples.view (mkPosition 10 10 7) Samples.range5 false 7 7 (fun _ => []))
            Samples.screen
            (prepareView Samples.world
               (Samples.view (mkPosition 10 10 7) Samples.range5 false 7 7 (fun _ => []))
               Samples.screen)
            [onFloorDrawingStart 7; onFloorDrawingEnd 7] _ _); reflexivity.
Defined.

End MapViewPainterExtra.
